(** * binaryClock: a shallow embedding of [binarieClock.c]

    The firmware of an ATtiny binary clock.  The globals of the C file become
    the fields of one [state] record; each interrupt service routine and one
    pass of the [while(true)] body of [main] become functions on that record,
    run one after the other.  Interrupts do not nest on the AVR and the main
    loop never reads the time fields, so for the time fields and the encoder
    this is the behaviour of the program.  In [run] an interrupt is taken
    between passes of the main loop; an interrupt between the two loads of
    [ledSeq[i]] in the display scan is modelled apart, by [muxScanIrq]; one
    between the load and the store of [bouncer++] is not modelled. *)

From Stdlib Require Import ZArith Lia Bool.
From stdpp Require Import base numbers list.

Local Open Scope Z_scope.

(** ** Machine integers *)

(** [uint8_t]: arithmetic is done in [int] and the store truncates. *)
Definition wrap_u8 (x : Z) : Z := x mod 256.

(** [uint16_t]. *)
Definition wrap_u16 (x : Z) : Z := x mod 65536.

(** [int] is 16 bits wide on the AVR; the volatile counters are loaded,
    incremented and stored, which wraps in two's complement on this target
    (the C standard leaves the overflow of a signed [++] undefined). *)
Definition wrap_int (x : Z) : Z := (x + 32768) mod 65536 - 32768.

(** ** The LED table *)

(** [struct pair]: the mask of one bit of the time word and the value
    written to the output port to light that LED. *)
Record pair := Pair { bin : Z; ledPins : Z }.

Definition ledPairs : list pair :=
  [ Pair 1    3     (* D0   0b00000011 *)
  ; Pair 2    125   (* D1   0b01111101 *)
  ; Pair 4    5     (* D2   0b00000101 *)
  ; Pair 8    123   (* D3   0b01111011 *)
  ; Pair 16   9     (* D4   0b00001001 *)
  ; Pair 32   119   (* D5   0b01110111 *)
  ; Pair 64   33    (* D6   0b00100001 *)
  ; Pair 128  95    (* D7   0b01011111 *)
  ; Pair 256  65    (* D8   0b01000001 *)
  ; Pair 512  63    (* D9   0b00111111 *)
  ; Pair 1024 129   (* D10  0b10000001 *)
  ].

(** ** The globals *)

Record state := State {
  hours : Z;                (* volatile uint8_t *)
  minutes : Z;              (* volatile uint8_t *)
  seconds : Z;              (* volatile uint8_t *)
  ledSeq : list Z;          (* volatile uint8_t [11] *)
  bouncer : Z;              (* volatile int *)
  sleep : Z;                (* volatile int *)
  PORTA : list Z;           (* the values written to PORTA, oldest first *)
  encLog : list (Z * Z);    (* ghost: the (hours, minutes) each call of
                               updateSeq read, oldest first *)
  sleepCalls : nat          (* ghost: how often sleep_mode() was entered *)
}.

Definition set_hours (v : Z) (st : state) : state :=
  State v (minutes st) (seconds st) (ledSeq st) (bouncer st) (sleep st)
        (PORTA st) (encLog st) (sleepCalls st).
Definition set_minutes (v : Z) (st : state) : state :=
  State (hours st) v (seconds st) (ledSeq st) (bouncer st) (sleep st)
        (PORTA st) (encLog st) (sleepCalls st).
Definition set_seconds (v : Z) (st : state) : state :=
  State (hours st) (minutes st) v (ledSeq st) (bouncer st) (sleep st)
        (PORTA st) (encLog st) (sleepCalls st).
Definition set_ledSeq (v : list Z) (st : state) : state :=
  State (hours st) (minutes st) (seconds st) v (bouncer st) (sleep st)
        (PORTA st) (encLog st) (sleepCalls st).
Definition set_bouncer (v : Z) (st : state) : state :=
  State (hours st) (minutes st) (seconds st) (ledSeq st) v (sleep st)
        (PORTA st) (encLog st) (sleepCalls st).
Definition set_sleep (v : Z) (st : state) : state :=
  State (hours st) (minutes st) (seconds st) (ledSeq st) (bouncer st) v
        (PORTA st) (encLog st) (sleepCalls st).
Definition write_PORTA (v : Z) (st : state) : state :=
  State (hours st) (minutes st) (seconds st) (ledSeq st) (bouncer st) (sleep st)
        (PORTA st ++ [v]) (encLog st) (sleepCalls st).
Definition log_encode (st : state) : state :=
  State (hours st) (minutes st) (seconds st) (ledSeq st) (bouncer st) (sleep st)
        (PORTA st) (encLog st ++ [(hours st, minutes st)]) (sleepCalls st).
Definition sleep_mode (st : state) : state :=
  State (hours st) (minutes st) (seconds st) (ledSeq st) (bouncer st) (sleep st)
        (PORTA st) (encLog st) (S (sleepCalls st)).

(** ** updateSeq *)

(** [time = (hours << 6) ^ minutes], stored in a [uint16_t]. *)
Definition packTime (h m : Z) : Z := wrap_u16 (Z.lxor (Z.shiftl h 6) m).

(** One pass of the body of the [for] loop: the array and [arrayInd]. *)
Definition fillStep (time : Z) (acc : list Z * nat) (p : pair) : list Z * nat :=
  if Z.land (bin p) time =? 0 then acc
  else (<[acc.2 := ledPins p]> (acc.1), S (acc.2)).

(** The array [ledSeq] that [updateSeq] leaves for a given [time]:
    [memset] to zero, then, when [time > 0], the loop over the eleven
    table entries. *)
Definition encode (time : Z) : list Z :=
  let cleared := replicate 11 0 in
  if 0 <? time then (foldl (fillStep time) (cleared, 0%nat) ledPairs).1
  else cleared.

Definition updateSeq (st : state) : state :=
  set_ledSeq (encode (packTime (hours st) (minutes st))) (log_encode st).

(** ** timeSetter and the timer interrupt *)

Definition timeSetter (st : state) : state :=
  let st1 :=
    if seconds st =? 60
    then updateSeq (set_minutes (wrap_u8 (minutes st + 1)) (set_seconds 0 st))
    else st in
  let st2 :=
    if minutes st1 =? 60
    then set_hours (wrap_u8 (hours st1 + 1)) (set_minutes 0 st1)
    else st1 in
  if 24 <=? hours st2 then set_hours 0 st2 else st2.

(** [ISR(TIMER1_OVF_vect)], once per second. *)
Definition ISR_TIMER1_OVF (st : state) : state :=
  let st1 := set_seconds (wrap_u8 (seconds st + 1)) st in
  let st2 := timeSetter st1 in
  set_sleep (wrap_int (sleep st2 + 1)) st2.

(** ** The pin-change interrupt *)

Definition PINA0 : Z := 0.
Definition PINB3 : Z := 3.
Definition PINB6 : Z := 6.

(** [!(reg & (1 << bit))]: the pin reads low. *)
Definition pinLow (reg bit : Z) : bool := Z.land reg (Z.shiftl 1 bit) =? 0.

(** The body run when PA0 reads low. *)
Definition pressHours (st : state) : state :=
  if 10 <=? bouncer st
  then updateSeq (set_bouncer 0 (set_hours (wrap_u8 (hours st + 1)) st))
  else st.

(** The body run when PB6 reads low. *)
Definition pressMinutes (st : state) : state :=
  if 10 <=? bouncer st
  then updateSeq (set_bouncer 0 (set_minutes (wrap_u8 (minutes st + 1)) st))
  else st.

(** The body run when PB3 reads low. *)
Definition pressWake (st : state) : state :=
  if 10 <=? bouncer st
  then set_bouncer 0 (set_sleep 0 st)
  else st.

(** [ISR(PCINT_vect)]; [pina] and [pinb] are the values the input
    registers PINA and PINB hold while the routine runs. *)
Definition ISR_PCINT (pina pinb : Z) (st : state) : state :=
  let st1 := if pinLow pina PINA0 then pressHours st else st in
  let st2 := if pinLow pinb PINB6 then pressMinutes st1 else st1 in
  if pinLow pinb PINB3 then pressWake st2 else st2.

(** ** main *)

(** The inner [while (ledSeq[i] != 0)] of [main].  [rest] is the part of
    the array from index [i] on, [port] the values written to PORTA so far.
    The result is the index the loop stops at and the writes; the loop
    running off the eleven cells is a read past the array: [None]. *)
Fixpoint muxScan (rest : list Z) (i : nat) (port : list Z)
  : option (nat * list Z) :=
  match rest with
  | [] => None
  | x :: rest' =>
      if x =? 0 then Some (i, port)
      else muxScan rest' (S i) (port ++ [x])
  end.

(** The [else] branch of the loop body: count the pass and show the time. *)
Definition multiplex (st : state) : option state :=
  let st1 := set_bouncer (wrap_int (bouncer st + 1)) st in
  match muxScan (ledSeq st1) 0%nat (PORTA st1) with
  | Some (_, port) =>
      Some (State (hours st1) (minutes st1) (seconds st1) (ledSeq st1)
                  (bouncer st1) (sleep st1) port (encLog st1)
                  (sleepCalls st1))
  | None => None
  end.

(** One pass of the body of [while(true)]. *)
Definition main_pass (st : state) : option state :=
  if 25 <=? sleep st
  then Some (sleep_mode (write_PORTA 1 (set_bouncer 10 st)))
  else multiplex st.

(** The globals as initialised, and [setup]: of the register set-up only
    the pull-up on PA0 ([PORTA |= 1]) touches the modelled output; it ends
    with [updateSeq()]. *)
Definition power_on : state :=
  State 3 16 0 (replicate 11 0) 0 0 [] [] 0.

Definition setup (st : state) : state := updateSeq (write_PORTA 1 st).

(** ** Runs of the whole program *)

Inductive event :=
| Tick                        (* timer 1 overflows *)
| PinChange (pina pinb : Z)   (* a pin-change interrupt *)
| MainPass.                   (* one pass of the main loop *)

#[global] Instance event_eq_dec : EqDecision event.
Proof. solve_decision. Defined.

Definition step (e : event) (st : state) : option state :=
  match e with
  | Tick => Some (ISR_TIMER1_OVF st)
  | PinChange pina pinb => Some (ISR_PCINT pina pinb st)
  | MainPass => main_pass st
  end.

Fixpoint run (es : list event) (st : state) : option state :=
  match es with
  | [] => Some st
  | e :: es' =>
      match step e st with
      | Some st' => run es' st'
      | None => None
      end
  end.

(** [n] timer interrupts in a row. *)
Definition ticks (n : nat) (st : state) : state := Nat.iter n ISR_TIMER1_OVF st.

(** ** The specification's vocabulary *)

(** The table as the specification lists it: bit position and output
    pattern, in ascending bit position. *)
Definition LedPatternTable : list (Z * Z) :=
  [ (0, 3); (1, 125); (2, 5); (3, 123); (4, 9); (5, 119); (6, 33); (7, 95)
  ; (8, 65); (9, 63); (10, 129) ].

(** The encoder in the specification's words: scan the table in order and
    keep the pattern of every entry whose bit is set in [word] ... *)
Definition spec_patterns (word : Z) : list Z :=
  snd <$> filter (λ e, Z.testbit word e.1 = true) LedPatternTable.

(** ... then append the sentinel. *)
Definition spec_encode (word : Z) : list Z := spec_patterns word ++ [0].

(** How many of the bits 0..10 of [word] are set. *)
Definition bitsSet (word : Z) : nat :=
  length (filter (λ i, Z.testbit word i = true) (seqZ 0 11)).

(** The ranges of a time of day. *)
Definition hmValid (h m : Z) : Prop := 0 ≤ h ≤ 23 ∧ 0 ≤ m ≤ 59.

Definition timeValid (st : state) : Prop :=
  hmValid (hours st) (minutes st) ∧ 0 ≤ seconds st ≤ 59.

(** The three logical inputs. *)
Inductive button := HoursButton | MinutesButton | WakeButton.

(** The input registers show exactly the pin of [b] low. *)
Definition onlyLow (b : button) (pina pinb : Z) : Prop :=
  pinLow pina PINA0 = (if b is HoursButton then true else false) ∧
  pinLow pinb PINB6 = (if b is MinutesButton then true else false) ∧
  pinLow pinb PINB3 = (if b is WakeButton then true else false).

(** The action the specification associates with each input. *)
Definition button_action (b : button) (st : state) : state :=
  match b with
  | HoursButton => updateSeq (set_hours (wrap_u8 (hours st + 1)) st)
  | MinutesButton => updateSeq (set_minutes (wrap_u8 (minutes st + 1)) st)
  | WakeButton => set_sleep 0 st
  end.

(** When the specification wants the display sequence rebuilt: a tick that
    completes a minute, or a pin change that applies an hour or minute
    adjustment. *)
Definition rebuildDue (e : event) (st : state) : Prop :=
  match e with
  | Tick => seconds st = 59
  | PinChange pina pinb =>
      10 ≤ bouncer st ∧ (pinLow pina PINA0 = true ∨ pinLow pinb PINB6 = true)
  | MainPass => False
  end.



(** Ten passes of the main loop, then a pin change: one debounced press. *)
Definition pressAfter (pina pinb : Z) : list event :=
  replicate 10 MainPass ++ [PinChange pina pinb].

(** The values the loop of [updateSeq] stores for the entries of [tbl]. *)
Definition picked (time : Z) (tbl : list pair) : list Z :=
  ledPins <$> filter (λ p, Z.land (bin p) time ≠ 0) tbl.

(** ** Vocabulary for further properties *)

(** The time of day in seconds since midnight. *)
Definition daySeconds (st : state) : Z :=
  hours st * 3600 + minutes st * 60 + seconds st.

(** The array on display is the encoding of the time the fields hold. *)
Definition displayFresh (st : state) : Prop :=
  ledSeq st = encode (packTime (hours st) (minutes st)).

(** The word whose table entries have their pattern in [seq]. *)
Definition decodeSeq (seq : list Z) : Z :=
  foldr (λ p acc, if bool_decide (ledPins p ∈ seq) then bin p + acc else acc)
        0 ledPairs.

(** The button whose block of [ISR(PCINT_vect)] comes first among those
    whose pin reads low. *)
Definition firstLow (pina pinb : Z) : option button :=
  if pinLow pina PINA0 then Some HoursButton
  else if pinLow pinb PINB6 then Some MinutesButton
  else if pinLow pinb PINB3 then Some WakeButton
  else None.

(** [st] after [n] passes of the display branch that each wrote [pats]. *)
Definition shown (n : nat) (pats : list Z) (st : state) : state :=
  State (hours st) (minutes st) (seconds st) (ledSeq st)
        (bouncer st + Z.of_nat n) (sleep st)
        (PORTA st ++ mjoin (replicate n pats)) (encLog st) (sleepCalls st).

(** What every state of a run from power-on satisfies. *)
Definition runInv (st : state) : Prop :=
  0 ≤ seconds st ≤ 59 ∧ 0 ≤ hours st < 256 ∧ 0 ≤ minutes st < 256 ∧
  length (ledSeq st) = 11%nat ∧
  (∃ h m, last (encLog st) = Some (h, m) ∧ ledSeq st = encode (packTime h m)) ∧
  Forall (λ v, Z.odd v = true) (PORTA st).

(** ** Edges, checked stores and interrupted scans *)

(** The pin of button [b] reads low. *)
Definition buttonLow (b : button) (pina pinb : Z) : bool :=
  match b with
  | HoursButton => pinLow pina PINA0
  | MinutesButton => pinLow pinb PINB6
  | WakeButton => pinLow pinb PINB3
  end.

(** [st'] is [st] after the action of [b] ran exactly once and the debounce
    counter was cleared, field by field: the hours or minutes went up by one
    (in a [uint8_t]) and the encoder ran once, on the new time; or the sleep
    timer was cleared; nothing else changed. *)
Definition served (b : button) (st st' : state) : Prop :=
  bouncer st' = 0 ∧ seconds st' = seconds st ∧
  PORTA st' = PORTA st ∧ sleepCalls st' = sleepCalls st ∧
  match b with
  | HoursButton =>
      hours st' = (hours st + 1) mod 256 ∧ minutes st' = minutes st ∧
      sleep st' = sleep st ∧
      encLog st' = encLog st ++ [(hours st', minutes st')] ∧ displayFresh st'
  | MinutesButton =>
      hours st' = hours st ∧ minutes st' = (minutes st + 1) mod 256 ∧
      sleep st' = sleep st ∧
      encLog st' = encLog st ++ [(hours st', minutes st')] ∧ displayFresh st'
  | WakeButton =>
      hours st' = hours st ∧ minutes st' = minutes st ∧ sleep st' = 0 ∧
      encLog st' = encLog st ∧ ledSeq st' = ledSeq st
  end.

(** The body of the [for] loop of [updateSeq] with the bound of the array
    made visible: the store [ledSeq[arrayInd] = ...] at an index outside
    the array is [None]. *)
Definition fillStepChecked (time : Z) (acc : option (list Z * nat)) (p : pair)
  : option (list Z * nat) :=
  match acc with
  | None => None
  | Some a =>
      if Z.land (bin p) time =? 0 then Some a
      else if decide (a.2 < length a.1)%nat
           then Some (<[a.2 := ledPins p]> (a.1), S (a.2))
           else None
  end.

(** The loop of [updateSeq] over the eleven cells, with checked stores. *)
Definition fillChecked (time : Z) : option (list Z * nat) :=
  foldl (fillStepChecked time) (Some (replicate 11 0, 0%nat)) ledPairs.

(** The two interrupts. *)
Inductive irq :=
| IrqTick
| IrqPin (pina pinb : Z).

Definition isr (q : irq) (st : state) : state :=
  match q with
  | IrqTick => ISR_TIMER1_OVF st
  | IrqPin pina pinb => ISR_PCINT pina pinb st
  end.

Definition interrupts (qs : list irq) (st : state) : state :=
  foldl (λ s q, isr q s) st qs.

(** The inner loop of [main] with its two loads of the volatile [ledSeq[i]]
    kept apart: the load of the test [ledSeq[i] != 0], then the load of
    [PORTA = ledSeq[i]].  The head of [irqs] holds the interrupts taken
    between the two loads of the current iteration; once [irqs] is used
    up the rest of the scan runs undisturbed, as [muxScan]. *)
Fixpoint muxScanIrq (irqs : list (list irq)) (i : nat) (st : state)
  : option state :=
  match irqs with
  | [] =>
      match muxScan (drop i (ledSeq st)) i (PORTA st) with
      | Some (_, port) =>
          Some (State (hours st) (minutes st) (seconds st) (ledSeq st)
                      (bouncer st) (sleep st) port (encLog st) (sleepCalls st))
      | None => None
      end
  | qs :: irqs' =>
      match ledSeq st !! i with
      | None => None
      | Some x =>
          if x =? 0 then Some st
          else
            let st1 := interrupts qs st in
            match ledSeq st1 !! i with
            | None => None
            | Some y => muxScanIrq irqs' (S i) (write_PORTA y st1)
            end
      end
  end.

(** The display branch of the loop body over such a scan. *)
Definition multiplexIrq (irqs : list (list irq)) (st : state) : option state :=
  muxScanIrq irqs 0%nat (set_bouncer (wrap_int (bouncer st + 1)) st).

(** * Proofs *)

Example encode_208 : encode 208 = [9; 33; 95; 0; 0; 0; 0; 0; 0; 0; 0].
Proof. reflexivity. Qed.

Example encode_2047 : encode 2047 = ledPins <$> ledPairs.
Proof. reflexivity. Qed.

Example table_masks :
  ledPairs = (λ e, Pair (2 ^ e.1) e.2) <$> LedPatternTable.
Proof. reflexivity. Qed.

(** ** The fill loop of updateSeq *)

Section FillLoop.
Variable time : Z.

Lemma picked_cons_set p tbl :
  Z.land (bin p) time ≠ 0 → picked time (p :: tbl) = ledPins p :: picked time tbl.
Proof. intros H. unfold picked. by rewrite filter_cons_True. Qed.

Lemma picked_cons_clear p tbl :
  Z.land (bin p) time = 0 → picked time (p :: tbl) = picked time tbl.
Proof.
  intros H. unfold picked. rewrite filter_cons_False; [done|]. by intros [].
Qed.

Lemma length_picked tbl : (length (picked time tbl) ≤ length tbl)%nat.
Proof. unfold picked. rewrite length_fmap. apply length_filter. Qed.

(** The loop invariant: with [pre] already stored and [arrayInd] at its
    end, the loop over [tbl] stores the picked patterns right behind
    [pre] and leaves the remaining cells zero. *)
Lemma fill_loop tbl : ∀ (pre : list Z) (n : nat),
  (length tbl ≤ n)%nat →
  foldl (fillStep time) (pre ++ replicate n 0, length pre) tbl
  = (pre ++ picked time tbl ++ replicate (n - length (picked time tbl)) 0,
     (length pre + length (picked time tbl))%nat).
Proof.
  induction tbl as [|p tbl IH]; intros pre n Hn; simpl in *.
  - by rewrite Nat.sub_0_r, Nat.add_0_r.
  - unfold fillStep at 2. simpl. destruct (Z.eqb_spec (Z.land (bin p) time) 0) as [E|E].
    + rewrite (picked_cons_clear _ _ E). apply IH. lia.
    + rewrite (picked_cons_set _ _ E). destruct n as [|n]; [lia|].
      rewrite insert_app_r_alt by lia. rewrite Nat.sub_diag. simpl.
      replace (pre ++ ledPins p :: replicate n 0)
        with ((pre ++ [ledPins p]) ++ replicate n 0) by by rewrite <- app_assoc.
      replace (S (length pre)) with (length (pre ++ [ledPins p]))
        by (rewrite length_app; simpl; lia).
      rewrite IH by lia. rewrite length_app. simpl.
      rewrite <- app_assoc. simpl. f_equal. lia.
Qed.

(** The array [updateSeq] leaves: the picked patterns, then zeros. *)
Lemma encode_picked :
  0 ≤ time →
  encode time
  = picked time ledPairs ++ replicate (11 - length (picked time ledPairs)) 0.
Proof.
  intros Ht. unfold encode. destruct (Z.ltb_spec 0 time) as [Hpos|Hz].
  - change (replicate 11 0, 0%nat) with ([] ++ replicate 11 0, length (@nil Z)).
    rewrite fill_loop by (simpl; lia). done.
  - assert (time = 0) as -> by lia. reflexivity.
Qed.
End FillLoop.

(** ** Masks and bit positions *)

Lemma land_pow2_testbit (k w : Z) :
  0 ≤ k → Z.land (2 ^ k) w ≠ 0 ↔ Z.testbit w k = true.
Proof.
  intros Hk. split.
  - intros Hne. destruct (Z.testbit w k) eqn:E; [done|]. exfalso. apply Hne.
    apply Z.bits_inj'. intros i Hi.
    rewrite Z.land_spec, Z.bits_0, Z.pow2_bits_eqb by done.
    destruct (Z.eqb_spec k i) as [->|]; [by rewrite E|done].
  - intros E Hz. apply (f_equal (λ z, Z.testbit z k)) in Hz.
    rewrite Z.land_spec, Z.bits_0, Z.pow2_bits_eqb, Z.eqb_refl, E in Hz by done.
    done.
Qed.

(** The loop's mask test picks the entries the specification's bit test
    picks, for any table whose masks are the powers of two of its bit
    positions. *)
Lemma picked_table (w : Z) (tbl : list (Z * Z)) :
  Forall (λ e, 0 ≤ e.1) tbl →
  picked w ((λ e, Pair (2 ^ e.1) e.2) <$> tbl)
  = snd <$> filter (λ e, Z.testbit w e.1 = true) tbl.
Proof.
  induction 1 as [|e tbl He Htbl IH]; [done|].
  rewrite fmap_cons, filter_cons.
  destruct (decide (Z.testbit w e.1 = true)) as [E|E].
  - rewrite picked_cons_set by (simpl; by apply land_pow2_testbit).
    simpl. by rewrite IH.
  - rewrite picked_cons_clear; [done|]. simpl.
    destruct (decide (Z.land (2 ^ e.1) w = 0)) as [|Hne]; [done|].
    by apply land_pow2_testbit in Hne.
Qed.

Lemma picked_spec (w : Z) : picked w ledPairs = spec_patterns w.
Proof.
  rewrite table_masks. apply picked_table.
  unfold LedPatternTable. repeat constructor; simpl; lia.
Qed.

Lemma length_filter_fst (P : Z → Prop) `{!∀ x, Decision (P x)} (tbl : list (Z * Z)) :
  length (filter (λ e, P e.1) tbl) = length (filter P (fst <$> tbl)).
Proof.
  induction tbl as [|e tbl IH]; [done|].
  rewrite fmap_cons, !filter_cons. destruct (decide (P e.1)); simpl; by rewrite IH.
Qed.

Lemma length_spec_patterns (w : Z) : length (spec_patterns w) = bitsSet w.
Proof.
  unfold spec_patterns, bitsSet. rewrite length_fmap.
  exact (length_filter_fst (λ i, Z.testbit w i = true) LedPatternTable).
Qed.

(** A word below 2047 has one of the bits 0..10 clear. *)
Lemma bitsSet_lt_11 (w : Z) : 0 ≤ w < 2047 → (bitsSet w < 11)%nat.
Proof.
  intros Hw. unfold bitsSet.
  destruct (decide (Forall (λ i, Z.testbit w i = true) (seqZ 0 11))) as [Hall|Hex].
  - exfalso. rewrite Forall_seqZ in Hall.
    assert (Z.land w (Z.ones 11) = Z.ones 11) as Hland.
    { apply Z.bits_inj'. intros i Hi. rewrite Z.land_spec.
      destruct (Z.ltb_spec i 11).
      - rewrite Hall by lia. by rewrite Z.ones_spec_low by lia.
      - rewrite Z.ones_spec_high by lia. by rewrite andb_false_r. }
    rewrite Z.land_ones in Hland by lia.
    pose proof (Z.mod_le w (2 ^ 11)) as Hle.
    change (Z.ones 11) with 2047 in Hland. lia.
  - apply not_Forall_Exists in Hex; [|apply _].
    apply Exists_exists in Hex as (i & Hi & Hclear).
    change 11%nat with (length (seqZ 0 11)).
    by eapply length_filter_lt.
Qed.

(** The inner loop of [main] on an array that holds nonzero values followed
    by a zero: it writes the values and stops at the zero. *)
Lemma muxScan_stops (pats rest : list Z) : ∀ (i : nat) (port : list Z),
  Forall (λ x, x ≠ 0) pats →
  muxScan (pats ++ 0 :: rest) i port
  = Some ((i + length pats)%nat, port ++ pats).
Proof.
  induction pats as [|x pats IH]; intros i port Hnz; simpl.
  - by rewrite Nat.add_0_r, app_nil_r.
  - inversion_clear Hnz as [|? ? Hx Hpats].
    destruct (Z.eqb_spec x 0) as [?|_]; [done|].
    rewrite IH by done. rewrite <- app_assoc. simpl. do 2 f_equal. lia.
Qed.

(** Without a zero the loop leaves the array. *)
Lemma muxScan_no_zero (pats : list Z) : ∀ (i : nat) (port : list Z),
  Forall (λ x, x ≠ 0) pats → muxScan pats i port = None.
Proof.
  induction pats as [|x pats IH]; intros i port Hnz; simpl; [done|].
  inversion_clear Hnz as [|? ? Hx Hpats].
  destruct (Z.eqb_spec x 0) as [?|_]; [done|]. by apply IH.
Qed.

Lemma picked_nonzero (w : Z) : Forall (λ x, x ≠ 0) (picked w ledPairs).
Proof.
  assert (Forall (λ p, ledPins p ≠ 0) ledPairs) as Htbl
    by (unfold ledPairs; repeat constructor; simpl; lia).
  unfold picked. apply Forall_fmap, Forall_forall. intros p Hp.
  apply list_elem_of_filter in Hp as [_ Hp].
  rewrite Forall_forall in Htbl. by apply Htbl.
Qed.

(** ** The packed time word *)

Lemma pack_disjoint (h m : Z) : 0 ≤ m < 64 → Z.land (Z.shiftl h 6) m = 0.
Proof.
  intros Hm. apply Z.bits_inj'. intros i Hi.
  rewrite Z.land_spec, Z.bits_0. destruct (Z.ltb_spec i 6).
  - by rewrite Z.shiftl_spec_low.
  - destruct (Z.eq_dec m 0) as [->|]; [by rewrite Z.bits_0, andb_false_r|].
    rewrite (Z.bits_above_log2 m i), andb_false_r; [done|lia|].
    assert (Z.log2 m < 6) by (apply Z.log2_lt_pow2; lia). lia.
Qed.

Lemma packTime_sum (h m : Z) :
  0 ≤ h < 256 → 0 ≤ m < 64 → packTime h m = h * 64 + m.
Proof.
  intros Hh Hm. unfold packTime, wrap_u16.
  rewrite <- Z.add_nocarry_lxor by by apply pack_disjoint.
  rewrite Z.shiftl_mul_pow2 by lia. change (2 ^ 6) with 64.
  apply Z.mod_small. lia.
Qed.

(** Every valid time has at most nine of the eleven bits set: checked on
    the 24 * 60 times of day. *)
Lemma bitsSet_valid (h m : Z) : hmValid h m → (bitsSet (packTime h m) ≤ 9)%nat.
Proof.
  intros [Hh Hm].
  assert (Forall (λ h, Forall (λ m, (bitsSet (packTime h m) ≤ 9)%nat) (seqZ 0 60))
                 (seqZ 0 24)) as Hall.
  { apply (bool_decide_unpack _). vm_compute. exact I. }
  rewrite Forall_seqZ in Hall. specialize (Hall h ltac:(lia)).
  rewrite Forall_seqZ in Hall. apply Hall. lia.
Qed.

(** ** Claims about the encoder *)

(** With all eleven bits set the loop fills all eleven cells of [ledSeq];
    the array does not hold the scanned patterns followed by a sentinel 0,
    and the display loop runs off it. *)
Lemma encode_2047_no_sentinel :
  0 ≤ 2047 ≤ 2047 ∧
  ¬ (∃ tail, encode 2047 = spec_encode 2047 ++ tail) ∧
  (∀ port, muxScan (encode 2047) 0 port = None).
Proof.
  split; [lia|]. split.
  - intros [tail H]. apply (f_equal length) in H.
    rewrite length_app in H. vm_compute in H. lia.
  - intros port. apply muxScan_no_zero.
    rewrite encode_2047. repeat constructor; simpl; lia.
Qed.

(** The words the scan is right for: for every word in 0..2046,
    [updateSeq] leaves in [ledSeq] the patterns of exactly the table entries
    whose bit is set in the word, in ascending bit position, followed by
    the sentinel 0 (and zeros up to the eleventh cell); [encode 208] holds
    0b00001001, 0b00100001, 0b01011111 and then the sentinel. *)
Theorem encode_scans_table :
  (∀ word, 0 ≤ word < 2047 →
     (length (spec_patterns word) ≤ 10)%nat ∧
     encode word
     = spec_encode word ++ replicate (10 - length (spec_patterns word)) 0) ∧
  spec_encode 208 = [9; 33; 95; 0] ∧
  encode 208 = [9; 33; 95; 0] ++ replicate 7 0.
Proof.
  split; [|by split].
  intros word Hw.
  assert (length (spec_patterns word) < 11)%nat as Hlen
    by (rewrite length_spec_patterns; by apply bitsSet_lt_11).
  split; [lia|].
  rewrite encode_picked by lia. rewrite picked_spec. unfold spec_encode.
  rewrite <- app_assoc. f_equal. simpl.
  replace (11 - length (spec_patterns word))%nat
    with (S (10 - length (spec_patterns word))) by lia.
  done.
Qed.

Lemma encode_scans_table_witness :
  0 ≤ 1364 < 2047 ∧
  encode 1364 = [5; 9; 33; 65; 129; 0] ++ replicate 5 0.
Proof.
  split; [lia|].
  exact (proj2 (proj1 encode_scans_table 1364 ltac:(lia))).
Defined.

(** C3 (the code departs from the claim): the word 2047 is reached from
    power-on, by 47 debounced presses of the minutes button and 28 of the
    hours button with no tick in between (hours 31, minutes 63).
    [updateSeq] then fills all eleven cells of [ledSeq], none of them is the
    sentinel 0, the array is not the scanned patterns followed by a
    sentinel, and the next pass of the main loop reads past the array. *)
Theorem all_bits_set_loses_sentinel :
  let es := mjoin (replicate 47 (pressAfter 1 8))
            ++ mjoin (replicate 28 (pressAfter 0 72)) in
  (λ st, (hours st, minutes st, ledSeq st)) <$> run es (setup power_on)
  = Some (31, 63, encode 2047) ∧
  packTime 31 63 = 2047 ∧
  Forall (λ x, x ≠ 0) (encode 2047) ∧
  ¬ (∃ tail, encode 2047 = spec_encode 2047 ++ tail) ∧
  run (es ++ [MainPass]) (setup power_on) = None.
Proof.
  split; [by vm_compute|]. split; [done|]. split.
  { rewrite encode_2047. repeat constructor; simpl; lia. }
  split; [|by vm_compute].
  intros [tail H]. apply (f_equal length) in H.
  rewrite length_app in H. vm_compute in H. lia.
Qed.

(** C4: at 00:00 the time word is 0, the specification's scan picks nothing,
    [updateSeq] leaves eleven zeros, and the display loop stops at index 0
    without a write. *)
Theorem encode_midnight :
  packTime 0 0 = 0 ∧
  spec_encode 0 = [0] ∧
  encode 0 = replicate 11 0 ∧
  (∀ st, ledSeq (updateSeq (set_minutes 0 (set_hours 0 st))) = replicate 11 0) ∧
  (∀ port, muxScan (encode 0) 0 port = Some (0%nat, port)).
Proof. by repeat split. Qed.

(** C5 (as stated, refuted): the array for the word 1 does not start with
    0b01111101 followed by the sentinel. *)
Lemma encode_1_is_not_D1 : ¬ (∃ tail, encode 1 = [125; 0] ++ tail).
Proof. intros [tail H]. vm_compute in H. congruence. Qed.

(** C5 (amended): at 00:01 the time word is 1, bit 0, whose table entry D0
    has the pattern 0b00000011: [ledSeq] holds that single pattern and then
    the sentinel.  0b01111101 is the pattern of bit 1, the word 2. *)
Theorem encode_one_minute :
  packTime 0 1 = 1 ∧
  spec_encode 1 = [3; 0] ∧
  encode 1 = [3; 0] ++ replicate 9 0 ∧
  (∀ port, muxScan (encode 1) 0 port = Some (1%nat, port ++ [3])) ∧
  encode 2 = [125; 0] ++ replicate 9 0.
Proof. by repeat split. Qed.

(** C6: for hours in 0..23 and minutes in 0..59 the word the encoder
    computes with exclusive or is [(hours << 6) | minutes], below 2^11,
    with the minutes in bits 0..5 and the hours above them. *)
Theorem packTime_is_or (h m : Z) :
  hmValid h m →
  packTime h m = Z.lor (Z.shiftl h 6) m ∧
  0 ≤ packTime h m < 2 ^ 11 ∧
  Z.land (packTime h m) (Z.ones 6) = m ∧
  Z.shiftr (packTime h m) 6 = h.
Proof.
  intros [Hh Hm].
  assert (packTime h m = h * 64 + m) as Hsum by (apply packTime_sum; lia).
  split; [|split; [|split]].
  - rewrite <- Z.lxor_lor by (apply pack_disjoint; lia).
    unfold packTime, wrap_u16. apply Z.mod_small.
    rewrite <- Z.add_nocarry_lxor by (apply pack_disjoint; lia).
    rewrite Z.shiftl_mul_pow2 by lia. change (2 ^ 6) with 64. lia.
  - rewrite Hsum. change (2 ^ 11) with 2048. lia.
  - rewrite Z.land_ones by lia. rewrite Hsum. change (2 ^ 6) with 64.
    rewrite Z.add_comm, Z.mod_add by lia. apply Z.mod_small. lia.
  - rewrite Z.shiftr_div_pow2 by lia. rewrite Hsum. change (2 ^ 6) with 64.
    rewrite Z.add_comm, Z.div_add by lia. rewrite Z.div_small by lia. lia.
Qed.

Lemma packTime_is_or_witness :
  hmValid 3 16 ∧ packTime 3 16 = Z.lor (Z.shiftl 3 6) 16 ∧ packTime 3 16 = 208.
Proof.
  assert (hmValid 3 16) as Hv by (unfold hmValid; lia).
  split; [exact Hv|]. split; [exact (proj1 (packTime_is_or 3 16 Hv))|reflexivity].
Defined.

(** C10: for a valid time at most nine of the eleven bits of the time word
    are set, so the array [updateSeq] builds has eleven cells ending in a
    zero, and the display loop stops at a zero cell of index at most 9,
    having written exactly the scanned patterns. *)
Theorem valid_time_leaves_sentinel (st : state) :
  hmValid (hours st) (minutes st) →
  let w := packTime (hours st) (minutes st) in
  let seq := ledSeq (updateSeq st) in
  (bitsSet w ≤ 9)%nat ∧
  length seq = 11%nat ∧
  last seq = Some 0 ∧
  ∀ port, ∃ i : nat,
    muxScan seq 0 port = Some (i, port ++ spec_patterns w) ∧
    (i ≤ 9)%nat ∧ seq !! i = Some 0.
Proof.
  intros Hv w seq.
  pose proof (bitsSet_valid _ _ Hv) as Hbits. fold w in Hbits.
  assert (0 ≤ w) as Hw0.
  { unfold w. rewrite packTime_sum by (destruct Hv; lia). destruct Hv. lia. }
  assert (seq = spec_patterns w ++ 0 :: replicate (10 - bitsSet w) 0) as Hseq.
  { unfold seq, updateSeq. simpl. fold w. rewrite encode_picked by done.
    rewrite picked_spec, length_spec_patterns.
    by replace (11 - bitsSet w)%nat with (S (10 - bitsSet w)) by lia. }
  split; [done|]. split; [|split].
  - rewrite Hseq, length_app. simpl.
    rewrite length_replicate, length_spec_patterns. lia.
  - rewrite Hseq. rewrite last_app.
    replace (0 :: replicate (10 - bitsSet w) 0)
      with (replicate (S (10 - bitsSet w)) 0) by done.
    rewrite replicate_S_end, last_snoc. done.
  - intros port. exists (bitsSet w). split; [|split; [done|]].
    + rewrite Hseq, muxScan_stops.
      * by rewrite length_spec_patterns.
      * rewrite <- picked_spec. apply picked_nonzero.
    + rewrite Hseq, lookup_app_r by (rewrite length_spec_patterns; lia).
      by rewrite length_spec_patterns, Nat.sub_diag.
Qed.

Lemma valid_time_leaves_sentinel_witness :
  hmValid 23 59 ∧
  (bitsSet (packTime 23 59) ≤ 9)%nat ∧
  last (encode (packTime 23 59)) = Some 0.
Proof.
  assert (hmValid 23 59) as Hv by (unfold hmValid; lia).
  split; [exact Hv|].
  destruct (valid_time_leaves_sentinel (State 23 59 0 [] 0 0 [] [] 0) Hv)
    as (Hbits & _ & Hlast & _).
  exact (conj Hbits Hlast).
Defined.

(** ** The time keeper *)

Arguments encode : simpl never.
Arguments packTime : simpl never.
Arguments wrap_u8 : simpl never.
Arguments wrap_int : simpl never.

Lemma wrap_u8_small (x : Z) : 0 ≤ x < 256 → wrap_u8 x = x.
Proof. intros. unfold wrap_u8. by apply Z.mod_small. Qed.

Lemma wrap_int_small (x : Z) : -32768 ≤ x < 32768 → wrap_int x = x.
Proof. intros. unfold wrap_int. rewrite Z.mod_small; lia. Qed.

(** What [timeSetter] does to the display: a rebuild exactly in its first
    branch, from the hours and the incremented minutes it finds there. *)
Lemma timeSetter_display (st : state) :
  encLog (timeSetter st)
  = (if seconds st =? 60
     then encLog st ++ [(hours st, wrap_u8 (minutes st + 1))] else encLog st) ∧
  ledSeq (timeSetter st)
  = (if seconds st =? 60
     then encode (packTime (hours st) (wrap_u8 (minutes st + 1))) else ledSeq st).
Proof.
  destruct st as [h m s seq b sl pa el sc]. unfold timeSetter. simpl.
  destruct (s =? 60); simpl.
  - destruct (wrap_u8 (m + 1) =? 60); simpl;
      [destruct (24 <=? wrap_u8 (h + 1))|destruct (24 <=? h)]; done.
  - destruct (m =? 60); simpl;
      [destruct (24 <=? wrap_u8 (h + 1))|destruct (24 <=? h)]; done.
Qed.

Lemma timeSetter_counters (st : state) :
  sleep (timeSetter st) = sleep st ∧ bouncer (timeSetter st) = bouncer st ∧
  PORTA (timeSetter st) = PORTA st ∧ sleepCalls (timeSetter st) = sleepCalls st.
Proof.
  destruct st as [h m s seq b sl pa el sc]. unfold timeSetter. simpl.
  destruct (s =? 60); simpl.
  - destruct (wrap_u8 (m + 1) =? 60); simpl;
      [destruct (24 <=? wrap_u8 (h + 1))|destruct (24 <=? h)]; done.
  - destruct (m =? 60); simpl;
      [destruct (24 <=? wrap_u8 (h + 1))|destruct (24 <=? h)]; done.
Qed.

Lemma tick_sleep (st : state) :
  sleep (ISR_TIMER1_OVF st) = wrap_int (sleep st + 1).
Proof.
  unfold ISR_TIMER1_OVF. simpl.
  by rewrite (proj1 (timeSetter_counters _)).
Qed.

(** A tick inside a minute only counts the second. *)
Lemma tick_quiet (st : state) :
  0 ≤ seconds st < 59 → minutes st ≠ 60 → hours st < 24 →
  ISR_TIMER1_OVF st
  = set_sleep (wrap_int (sleep st + 1)) (set_seconds (seconds st + 1) st).
Proof.
  destruct st as [h m s seq b sl pa el sc]. simpl. intros Hs Hm Hh.
  unfold ISR_TIMER1_OVF, timeSetter. simpl.
  rewrite wrap_u8_small by lia.
  destruct (Z.eqb_spec (s + 1) 60) as [?|_]; [lia|]. simpl.
  destruct (Z.eqb_spec m 60) as [?|_]; [done|]. simpl.
  destruct (Z.leb_spec 24 h) as [?|_]; [lia|]. done.
Qed.

(** The tick that completes a minute, from a valid time. *)
Lemma tick_rollover (st : state) :
  seconds st = 59 → hmValid (hours st) (minutes st) →
  let st' := ISR_TIMER1_OVF st in
  seconds st' = 0 ∧
  minutes st' = (minutes st + 1) mod 60 ∧
  hours st' = (if minutes st =? 59 then (hours st + 1) mod 24 else hours st) ∧
  encLog st' = encLog st ++ [(hours st, minutes st + 1)] ∧
  ledSeq st' = encode (packTime (hours st) (minutes st + 1)).
Proof.
  destruct st as [h m s seq b sl pa el sc]. simpl. intros -> [Hh Hm].
  unfold ISR_TIMER1_OVF, timeSetter. simpl.
  change (wrap_u8 (59 + 1) =? 60) with true. simpl.
  rewrite !(wrap_u8_small (m + 1)) by lia.
  destruct (Z.eqb_spec (m + 1) 60) as [E|E]; simpl.
  - assert (m = 59) as -> by lia. simpl.
    rewrite wrap_u8_small by lia.
    destruct (Z.leb_spec 24 (h + 1)); simpl.
    + assert (h = 23) as -> by lia. done.
    + rewrite (Z.mod_small (h + 1)) by lia. done.
  - destruct (Z.eqb_spec m 59) as [?|_]; [lia|].
    rewrite (Z.mod_small (m + 1)) by lia.
    destruct (Z.leb_spec 24 h); [lia|]. done.
Qed.

(** A valid time of day stays valid over a tick. *)
Lemma tick_valid (st : state) : timeValid st → timeValid (ISR_TIMER1_OVF st).
Proof.
  intros [[Hh Hm] Hs]. destruct (Z.eq_dec (seconds st) 59) as [E|E].
  - destruct (tick_rollover st E (conj Hh Hm)) as (Hs' & Hm' & Hh' & _).
    unfold timeValid, hmValid. rewrite Hs', Hm', Hh'.
    pose proof (Z.mod_pos_bound (minutes st + 1) 60).
    pose proof (Z.mod_pos_bound (hours st + 1) 24).
    destruct (minutes st =? 59); lia.
  - rewrite tick_quiet by lia. unfold timeValid, hmValid. simpl. lia.
Qed.

Lemma ticks_quiet (k : nat) (st : state) :
  0 ≤ seconds st → seconds st + Z.of_nat k ≤ 59 →
  minutes st ≠ 60 → hours st < 24 →
  let st' := ticks k st in
  seconds st' = seconds st + Z.of_nat k ∧ hours st' = hours st ∧
  minutes st' = minutes st ∧ encLog st' = encLog st ∧ ledSeq st' = ledSeq st.
Proof.
  intros Hs0. induction k as [|k IH]; intros Hk Hm Hh; cbv zeta.
  - change (ticks 0 st) with st. repeat split; lia.
  - destruct IH as (Hs & Hh' & Hm' & Hlog & Hseq); [lia|done|done|].
    change (ticks (S k) st) with (ISR_TIMER1_OVF (ticks k st)).
    rewrite tick_quiet by lia. simpl.
    rewrite Hs, Hh', Hm', Hlog, Hseq. repeat split; lia.
Qed.

Lemma ticks_sleep (n : nat) (st : state) :
  0 ≤ sleep st → sleep st + Z.of_nat n < 32768 →
  sleep (ticks n st) = sleep st + Z.of_nat n.
Proof.
  intros H0. induction n as [|n IH]; intros Hn.
  { change (ticks 0 st) with st. lia. }
  change (ticks (S n) st) with (ISR_TIMER1_OVF (ticks n st)).
  rewrite tick_sleep, IH by lia.
  rewrite wrap_int_small; lia.
Qed.

(** C1 (the code departs from the claim): 2640 ticks after power-on, at the
    turn from 03:59:59 to 04:00:00, [timeSetter] calls [updateSeq] between
    [minutes++] and the test [minutes == 60]: the encoder reads minutes = 60,
    and the array it builds, for 3:60, is not the one of 04:00 and stays
    until the next minute is complete. *)
Theorem tick_encodes_minute_60 :
  let st := ticks 2640 (setup power_on) in
  (hours st, minutes st, seconds st) = (4, 0, 0) ∧
  last (encLog st) = Some (3, 60) ∧
  ledSeq st = encode (packTime 3 60) ∧
  ledSeq st ≠ encode (packTime 4 0) ∧
  ledSeq (ticks 59 st) = encode (packTime 3 60).
Proof. vm_compute. repeat split; congruence. Qed.

(** C2 (the code departs from the claim): twenty debounced presses of the
    hours button after power-on bring the hours to 23; the next press makes
    them 24, not 0, and the encoder runs on 24.  Likewise the minutes go
    from 59 to 60, and the following tick turns that into a carry into the
    hours. *)
Theorem press_does_not_wrap :
  let hourPress := pressAfter 0 72 in
  let minutePress := pressAfter 1 8 in
  (hours <$> run (mjoin (replicate 20 hourPress)) (setup power_on) = Some 23 ∧
   hours <$> run (mjoin (replicate 21 hourPress)) (setup power_on) = Some 24 ∧
   (last ∘ encLog) <$> run (mjoin (replicate 21 hourPress)) (setup power_on)
   = Some (Some (24, 16))) ∧
  (minutes <$> run (mjoin (replicate 43 minutePress)) (setup power_on) = Some 59 ∧
   minutes <$> run (mjoin (replicate 44 minutePress)) (setup power_on) = Some 60 ∧
   (λ st, (hours st, minutes st))
     <$> run (mjoin (replicate 44 minutePress) ++ [Tick]) (setup power_on)
   = Some (4, 0)).
Proof. vm_compute. repeat split. Qed.

(** ** The pin-change interrupt *)

Lemma press_ignored (st : state) :
  bouncer st < 10 →
  pressHours st = st ∧ pressMinutes st = st ∧ pressWake st = st.
Proof.
  intros Hb. unfold pressHours, pressMinutes, pressWake.
  by destruct (Z.leb_spec 10 (bouncer st)) as [?|_]; [lia|].
Qed.

Lemma press_fires (st : state) :
  10 ≤ bouncer st →
  pressHours st = set_bouncer 0 (button_action HoursButton st) ∧
  pressMinutes st = set_bouncer 0 (button_action MinutesButton st) ∧
  pressWake st = set_bouncer 0 (button_action WakeButton st).
Proof.
  intros Hb. unfold pressHours, pressMinutes, pressWake.
  destruct (Z.leb_spec 10 (bouncer st)) as [_|?]; [|lia]. by destruct st.
Qed.

(** Below the threshold the routine changes nothing, whatever the pins. *)
Lemma pcint_ignored (pina pinb : Z) (st : state) :
  bouncer st < 10 → ISR_PCINT pina pinb st = st.
Proof.
  intros Hb. destruct (press_ignored st Hb) as (Hh & Hm & Hw).
  unfold ISR_PCINT.
  destruct (pinLow pina PINA0), (pinLow pinb PINB6), (pinLow pinb PINB3);
    cbv zeta; by rewrite ?Hh, ?Hm, ?Hw.
Qed.

(** At or above the threshold, with one button low, the routine is that
    button's action followed by the reset of the counter. *)
Lemma pcint_fires (b : button) (pina pinb : Z) (st : state) :
  onlyLow b pina pinb → 10 ≤ bouncer st →
  ISR_PCINT pina pinb st = set_bouncer 0 (button_action b st).
Proof.
  intros (Ha & Hm & Hw) Hb. destruct (press_fires st Hb) as (Fh & Fm & Fw).
  unfold ISR_PCINT. rewrite Ha, Hm, Hw. by destruct b; cbv zeta.
Qed.

(** ** When the display sequence is rebuilt *)

Lemma tick_display (st : state) :
  0 ≤ seconds st ≤ 59 →
  (seconds st = 59 →
     encLog (ISR_TIMER1_OVF st)
     = encLog st ++ [(hours st, wrap_u8 (minutes st + 1))] ∧
     ledSeq (ISR_TIMER1_OVF st)
     = encode (packTime (hours st) (wrap_u8 (minutes st + 1)))) ∧
  (seconds st ≠ 59 →
     encLog (ISR_TIMER1_OVF st) = encLog st ∧
     ledSeq (ISR_TIMER1_OVF st) = ledSeq st).
Proof.
  intros Hs. unfold ISR_TIMER1_OVF. simpl.
  destruct (timeSetter_display (set_seconds (wrap_u8 (seconds st + 1)) st))
    as [-> ->]. simpl.
  rewrite wrap_u8_small by lia.
  destruct (Z.eqb_spec (seconds st + 1) 60); split; intros; try lia; done.
Qed.

Lemma pcint_display (pina pinb : Z) (st : state) :
  let st' := ISR_PCINT pina pinb st in
  (rebuildDue (PinChange pina pinb) st →
     ∃ hm, encLog st' = encLog st ++ [hm] ∧
           ledSeq st' = encode (packTime hm.1 hm.2)) ∧
  (¬ rebuildDue (PinChange pina pinb) st →
     encLog st' = encLog st ∧ ledSeq st' = ledSeq st).
Proof.
  destruct (Z.leb_spec 10 (bouncer st)) as [Hb|Hb]; cbv zeta.
  - destruct st as [h m s seq b sl pa el sc]. simpl in Hb.
    unfold ISR_PCINT, pressHours, pressMinutes, pressWake, rebuildDue.
    destruct (pinLow pina PINA0), (pinLow pinb PINB6), (pinLow pinb PINB3);
      simpl; rewrite ?(proj2 (Z.leb_le 10 b) Hb); simpl;
      (split; [intros _; eexists; split; reflexivity
              |intros Hn; exfalso; apply Hn; split; [done|]; auto])
      || (split; [intros [_ [?|?]]; done|done]).
  - rewrite pcint_ignored by done.
    split; [intros [? _]; lia|done].
Qed.

Lemma main_pass_display (st st' : state) :
  main_pass st = Some st' → encLog st' = encLog st ∧ ledSeq st' = ledSeq st.
Proof.
  unfold main_pass, multiplex. destruct (25 <=? sleep st).
  - by intros [= <-].
  - simpl. destruct (muxScan _ _ _) as [[i port]|]; [|done]. by intros [= <-].
Qed.

(** C8: a step of the program appends exactly one rebuild of the display
    sequence when it is a tick that completes a minute or a pin change that
    applies an hour or minute adjustment, and leaves the sequence alone
    otherwise; on a tick from a valid time the minute changes exactly when
    the sequence is rebuilt; and 60 ticks from seconds = 0 bring one minute
    increment, one rebuild, and seconds = 0 again. *)
Theorem rebuild_exactly_when_due :
  (∀ e st st', 0 ≤ seconds st ≤ 59 → step e st = Some st' →
     (rebuildDue e st →
        ∃ hm, encLog st' = encLog st ++ [hm] ∧
              ledSeq st' = encode (packTime hm.1 hm.2)) ∧
     (¬ rebuildDue e st → encLog st' = encLog st ∧ ledSeq st' = ledSeq st)) ∧
  (∀ st, timeValid st →
     minutes (ISR_TIMER1_OVF st) = minutes st →
     encLog (ISR_TIMER1_OVF st) = encLog st) ∧
  (∀ st, timeValid st → seconds st = 0 →
     let st' := ticks 60 st in
     seconds st' = 0 ∧
     minutes st' = (minutes st + 1) mod 60 ∧
     hours st' = (if minutes st =? 59 then (hours st + 1) mod 24 else hours st) ∧
     encLog st' = encLog st ++ [(hours st, minutes st + 1)] ∧
     ledSeq st' = encode (packTime (hours st) (minutes st + 1))).
Proof.
  split; [|split].
  - intros [|pina pinb|] st st' Hs Hstep; simpl in Hstep.
    + injection Hstep as <-. destruct (tick_display st Hs) as [Hdue Hnot].
      split; [|exact Hnot]. intros Hd. destruct (Hdue Hd) as [Hlog Hseq].
      eexists. split; [exact Hlog|exact Hseq].
    + injection Hstep as <-. apply pcint_display.
    + split; [done|]. intros _. by apply main_pass_display.
  - intros st [[Hh Hm] Hs] Hsame.
    destruct (Z.eq_dec (seconds st) 59) as [E|E].
    + destruct (tick_rollover st E (conj Hh Hm)) as (_ & Hm' & _).
      rewrite Hm' in Hsame. exfalso.
      destruct (Z.eq_dec (minutes st) 59) as [E59|E59].
      * rewrite E59 in Hsame. done.
      * rewrite Z.mod_small in Hsame; lia.
    + by apply tick_display.
  - intros st [[Hh Hm] Hs] Hs0. cbv zeta.
    change (ticks 60 st) with (ISR_TIMER1_OVF (ticks 59 st)).
    destruct (ticks_quiet 59 st) as (Hs59 & Hh59 & Hm59 & Hlog & Hseq);
      [lia|lia|lia|lia|].
    destruct (tick_rollover (ticks 59 st)) as (Hs' & Hm' & Hh' & Hlog' & Hseq').
    { rewrite Hs59, Hs0. done. }
    { rewrite Hh59, Hm59. done. }
    rewrite Hh59, Hm59, Hlog in *. done.
Qed.

Lemma rebuild_exactly_when_due_witness :
  timeValid (setup power_on) ∧
  seconds (ticks 60 (setup power_on)) = 0 ∧
  minutes (ticks 60 (setup power_on)) = 17 ∧
  encLog (ticks 60 (setup power_on)) = [(3, 16); (3, 17)].
Proof.
  assert (timeValid (setup power_on)) as Hv
    by (unfold timeValid, hmValid; simpl; lia).
  split; [exact Hv|].
  destruct (proj2 (proj2 rebuild_exactly_when_due) (setup power_on) Hv eq_refl)
    as (Hs & Hm & _ & Hlog & _).
  exact (conj Hs (conj Hm Hlog)).
Defined.

(** ** Sleeping and waking *)






(** * Further properties of the code *)

(** ** The clock over ticks *)

Lemma tick_daySeconds (st : state) :
  timeValid st →
  daySeconds (ISR_TIMER1_OVF st) = (daySeconds st + 1) mod 86400.
Proof.
  intros [[Hh Hm] Hs]. unfold daySeconds.
  destruct (Z.eq_dec (seconds st) 59) as [E|E].
  - destruct (tick_rollover st E (conj Hh Hm)) as (-> & -> & -> & _).
    rewrite E. destruct (Z.eqb_spec (minutes st) 59) as [E59|N59].
    + rewrite E59. change ((59 + 1) mod 60) with 0.
      destruct (Z.eq_dec (hours st) 23) as [->|N23]; [done|].
      rewrite (Z.mod_small (hours st + 1)) by lia.
      rewrite Z.mod_small; lia.
    + rewrite (Z.mod_small (minutes st + 1)) by lia.
      rewrite Z.mod_small; lia.
  - rewrite tick_quiet by lia. simpl. rewrite Z.mod_small; lia.
Qed.

Lemma ticks_valid (n : nat) (st : state) : timeValid st → timeValid (ticks n st).
Proof.
  intros Hv. induction n as [|n IH]; [done|].
  change (ticks (S n) st) with (ISR_TIMER1_OVF (ticks n st)). by apply tick_valid.
Qed.

Lemma ticks_daySeconds (n : nat) (st : state) :
  timeValid st →
  daySeconds (ticks n st) = (daySeconds st + Z.of_nat n) mod 86400.
Proof.
  intros Hv. induction n as [|n IH].
  - change (ticks 0 st) with st. destruct Hv as [[Hh Hm] Hs].
    unfold daySeconds. rewrite Z.mod_small; lia.
  - change (ticks (S n) st) with (ISR_TIMER1_OVF (ticks n st)).
    rewrite tick_daySeconds by by apply ticks_valid.
    rewrite IH, Z.add_mod_idemp_l by lia. f_equal. lia.
Qed.

(** X1: from a valid time of day, any number of timer interrupts leaves a
    valid time of day, and the time has advanced by exactly that many
    seconds modulo one day. *)
Theorem clock_counts_seconds (n : nat) (st : state) :
  timeValid st →
  timeValid (ticks n st) ∧
  daySeconds (ticks n st) = (daySeconds st + Z.of_nat n) mod 86400.
Proof.
  intros Hv. split; [by apply ticks_valid|by apply ticks_daySeconds].
Qed.

Lemma clock_counts_seconds_witness :
  timeValid (setup power_on) ∧
  daySeconds (ticks 100 (setup power_on)) = (11760 + 100) mod 86400.
Proof.
  assert (timeValid (setup power_on)) as Hv
    by (unfold timeValid, hmValid; simpl; lia).
  split; [exact Hv|].
  exact (proj2 (clock_counts_seconds 100 (setup power_on) Hv)).
Defined.

(** X2: after a whole number of days of ticks the clock shows the time it
    started from. *)
Theorem clock_period_one_day (n : nat) (st : state) :
  timeValid st → Z.of_nat n mod 86400 = 0 →
  hours (ticks n st) = hours st ∧ minutes (ticks n st) = minutes st ∧
  seconds (ticks n st) = seconds st.
Proof.
  intros Hv Hn.
  pose proof (ticks_valid n st Hv) as [[Hh' Hm'] Hs'].
  pose proof (ticks_daySeconds n st Hv) as Hd.
  destruct Hv as [[Hh Hm] Hs].
  rewrite <- Z.add_mod_idemp_r, Hn, Z.add_0_r in Hd by lia.
  unfold daySeconds in Hd. rewrite Z.mod_small in Hd by lia. lia.
Qed.

Lemma clock_period_one_day_witness :
  timeValid (setup power_on) ∧ Z.of_nat (Z.to_nat 172800) mod 86400 = 0 ∧
  hours (ticks (Z.to_nat 172800) (setup power_on)) = hours (setup power_on).
Proof.
  assert (timeValid (setup power_on)) as Hv
    by (unfold timeValid, hmValid; simpl; lia).
  assert (Z.of_nat (Z.to_nat 172800) mod 86400 = 0) as Hn
    by (rewrite Z2Nat.id by lia; reflexivity).
  split; [exact Hv|]. split; [exact Hn|].
  exact (proj1 (clock_period_one_day (Z.to_nat 172800) (setup power_on) Hv Hn)).
Defined.

(** X3: minutes above 60 are never repaired by the test [minutes == 60]:
    with the minutes in 61..255 a tick leaves the hours alone, and the
    minutes stay as they are, or count on modulo 256 when the tick
    completes a minute. *)
Theorem minutes_above_60_stay (st : state) :
  60 < minutes st < 256 → 0 ≤ seconds st ≤ 59 → 0 ≤ hours st < 24 →
  hours (ISR_TIMER1_OVF st) = hours st ∧
  minutes (ISR_TIMER1_OVF st)
  = (if seconds st =? 59 then (minutes st + 1) mod 256 else minutes st).
Proof.
  destruct st as [h m s seq b sl pa el sc]. simpl. intros Hm Hs Hh.
  unfold ISR_TIMER1_OVF, timeSetter. simpl.
  rewrite (wrap_u8_small (s + 1)) by lia.
  destruct (Z.eqb_spec s 59) as [->|Ns].
  - simpl. unfold wrap_u8.
    pose proof (Z.mod_pos_bound (m + 1) 256).
    destruct (Z.eqb_spec ((m + 1) mod 256) 60) as [E|_].
    + exfalso. destruct (Z.eq_dec m 255) as [->|]; [done|].
      rewrite Z.mod_small in E; lia.
    + simpl. destruct (Z.leb_spec 24 h); [lia|]. done.
  - destruct (Z.eqb_spec (s + 1) 60); [lia|]. simpl.
    destruct (Z.eqb_spec m 60); [lia|]. simpl.
    destruct (Z.leb_spec 24 h); [lia|]. done.
Qed.

Lemma minutes_above_60_stay_witness :
  60 < 61 < 256 ∧
  minutes (ISR_TIMER1_OVF (State 3 61 7 [] 0 0 [] [] 0)) = 61.
Proof.
  split; [lia|].
  exact (proj2 (minutes_above_60_stay (State 3 61 7 [] 0 0 [] [] 0)
    ltac:(simpl; lia) ltac:(simpl; lia) ltac:(simpl; lia))).
Defined.

(** ** More on the encoder *)

Lemma decode_encode (w : Z) : 0 ≤ w ≤ 2047 → decodeSeq (encode w) = w.
Proof.
  intros Hw.
  assert (Forall (λ w, decodeSeq (encode w) = w) (seqZ 0 2048)) as Hall.
  { apply (bool_decide_unpack _). vm_compute. exact I. }
  rewrite Forall_seqZ in Hall. apply Hall. lia.
Qed.

Lemma picked_agree (w1 w2 : Z) (tbl : list pair) :
  Forall (λ p, Z.land (bin p) w1 = 0 ↔ Z.land (bin p) w2 = 0) tbl →
  picked w1 tbl = picked w2 tbl.
Proof.
  induction 1 as [|p tbl Hp _ IH]; [done|].
  destruct (Z.eq_dec (Z.land (bin p) w1) 0) as [E|E].
  - rewrite !picked_cons_clear by tauto. done.
  - rewrite !picked_cons_set by tauto. by rewrite IH.
Qed.

Lemma land_2047_bounds (w : Z) : 0 ≤ Z.land w 2047 ≤ 2047.
Proof.
  change 2047 with (Z.ones 11) at 1 2. rewrite Z.land_ones by lia.
  pose proof (Z.mod_pos_bound w (2 ^ 11)). change (2 ^ 11) with 2048 in *. lia.
Qed.

Lemma picked_low_bits (w : Z) : picked (Z.land w 2047) ledPairs = picked w ledPairs.
Proof.
  apply picked_agree. unfold ledPairs.
  repeat constructor; cbn [bin];
    rewrite (Z.land_comm w 2047), Z.land_assoc; done.
Qed.

Lemma encode_low_bits (w : Z) : 0 ≤ w → encode (Z.land w 2047) = encode w.
Proof.
  intros Hw. rewrite !encode_picked by (done || apply land_2047_bounds).
  by rewrite picked_low_bits.
Qed.

Lemma packTime_nonneg (h m : Z) : 0 ≤ packTime h m < 65536.
Proof. unfold packTime, wrap_u16. by apply Z.mod_pos_bound. Qed.

(** X4: distinct words in 0..2047 give distinct arrays, so the LED sequence
    determines the time word it was built from. *)
Theorem encode_injective (w1 w2 : Z) :
  0 ≤ w1 ≤ 2047 → 0 ≤ w2 ≤ 2047 → encode w1 = encode w2 → w1 = w2.
Proof.
  intros H1 H2 Heq.
  rewrite <- (decode_encode w1 H1), <- (decode_encode w2 H2). by rewrite Heq.
Qed.

Lemma encode_injective_witness :
  0 ≤ 208 ≤ 2047 ∧ (encode 208 = encode (packTime 3 16) → 208 = packTime 3 16).
Proof.
  split; [lia|].
  exact (encode_injective 208 (packTime 3 16) ltac:(lia) ltac:(vm_compute; split; congruence)).
Defined.

(** The loop invariant for the stores: as long as [arrayInd] plus the number
    of entries still to come does not exceed the size of the array, no
    store leaves the array, and the checked loop does what the loop does. *)
Lemma fill_checked (time : Z) (tbl : list pair) : ∀ acc : list Z * nat,
  (acc.2 + length tbl ≤ length acc.1)%nat →
  foldl (fillStepChecked time) (Some acc) tbl
  = Some (foldl (fillStep time) acc tbl).
Proof.
  induction tbl as [|p tbl IH]; intros acc Hlen; [done|].
  cbn [foldl length] in *. unfold fillStepChecked at 2, fillStep at 2.
  destruct (Z.land (bin p) time =? 0).
  - apply IH. lia.
  - destruct (decide (acc.2 < length acc.1)%nat) as [_|Hout]; [|lia].
    apply IH. cbn [fst snd]. rewrite length_insert. lia.
Qed.

(** X5: for every time word the loop of [updateSeq] stores only inside the
    eleven cells of [ledSeq] (with checked stores it never fails and gives
    what the loop gives); the array has eleven cells and depends only on
    bits 0..10 of the word: what the hours (up to 255 in a [uint8_t]) put
    into bits 11..13 is not shown. *)
Theorem encode_uses_low_11_bits (w : Z) :
  0 ≤ w →
  length (encode w) = 11%nat ∧ encode w = encode (Z.land w 2047) ∧
  fst <$> fillChecked w = Some (encode w).
Proof.
  intros Hw. split; [|split; [by rewrite encode_low_bits|]].
  - rewrite encode_picked by done. rewrite length_app, length_replicate.
    pose proof (length_picked w ledPairs) as Hlen.
    change (length ledPairs) with 11%nat in Hlen. lia.
  - unfold fillChecked. rewrite fill_checked by (simpl; lia).
    unfold encode. destruct (Z.ltb_spec 0 w) as [_|Hz]; [done|].
    by assert (w = 0) as -> by lia.
Qed.

Lemma encode_uses_low_11_bits_witness :
  0 ≤ packTime 35 16 ∧ encode (packTime 35 16) = encode (packTime 3 16).
Proof.
  split; [vm_compute; congruence|].
  exact (proj1 (proj2 (encode_uses_low_11_bits (packTime 35 16)
    ltac:(vm_compute; congruence)))).
Defined.

(** The display scan on the array of a word: it runs off the array when
    all of the bits 0..10 are set, and stops behind the patterns otherwise. *)
Lemma scan_encode (w : Z) (i : nat) (port : list Z) :
  0 ≤ w →
  (Z.land w 2047 = 2047 → muxScan (encode w) i port = None) ∧
  (Z.land w 2047 ≠ 2047 →
     muxScan (encode w) i port
     = Some ((i + bitsSet (Z.land w 2047))%nat,
             port ++ spec_patterns (Z.land w 2047))).
Proof.
  intros Hw. rewrite <- (encode_low_bits w Hw).
  pose proof (land_2047_bounds w) as Hb. split.
  - intros ->. apply muxScan_no_zero. rewrite encode_2047.
    repeat constructor; simpl; lia.
  - intros Hne.
    assert (bitsSet (Z.land w 2047) < 11)%nat as Hlt by (apply bitsSet_lt_11; lia).
    rewrite encode_picked by lia. rewrite picked_spec, length_spec_patterns.
    replace (11 - bitsSet (Z.land w 2047))%nat
      with (S (10 - bitsSet (Z.land w 2047))) by lia.
    rewrite replicate_S, muxScan_stops, length_spec_patterns; [done|].
    rewrite <- picked_spec. apply picked_nonzero.
Qed.

Lemma hours_upto_27 (h m : Z) :
  0 ≤ h ≤ 27 → 0 ≤ m < 256 → Z.land (packTime h m) 2047 ≠ 2047.
Proof.
  intros Hh Hm.
  assert (Forall (λ h, Forall (λ m, Z.land (packTime h m) 2047 ≠ 2047) (seqZ 0 256))
                 (seqZ 0 28)) as Hall.
  { apply (bool_decide_unpack _). vm_compute. exact I. }
  rewrite Forall_seqZ in Hall. specialize (Hall h ltac:(lia)).
  rewrite Forall_seqZ in Hall. apply Hall. lia.
Qed.

(** X6: after [updateSeq], a pass of the display branch reads past the
    eleven cells of [ledSeq] exactly when bits 0..10 of the time word are
    all set.  With the hours at most 27 that cannot happen, whatever the
    minutes hold. *)
Theorem scan_overrun_iff_all_bits (st : state) :
  0 ≤ hours st < 256 → 0 ≤ minutes st < 256 → sleep st < 25 →
  (main_pass (updateSeq st) = None
   ↔ Z.land (packTime (hours st) (minutes st)) 2047 = 2047) ∧
  (hours st ≤ 27 → main_pass (updateSeq st) ≠ None).
Proof.
  intros Hh Hm Hsl.
  pose proof (packTime_nonneg (hours st) (minutes st)) as [Hw _].
  assert (main_pass (updateSeq st)
          = None ↔ Z.land (packTime (hours st) (minutes st)) 2047 = 2047) as Hiff.
  { destruct st as [h m s seq b sl pa el sc]. simpl in *.
    unfold main_pass, multiplex. simpl.
    destruct (Z.leb_spec 25 sl) as [?|_]; [lia|].
    destruct (scan_encode (packTime h m) 0 pa Hw) as [Hfull Hfree].
    destruct (Z.eq_dec (Z.land (packTime h m) 2047) 2047) as [E|E].
    - by rewrite (Hfull E).
    - by rewrite (Hfree E). }
  split; [exact Hiff|].
  intros H27 Hnone. apply Hiff in Hnone.
  apply (hours_upto_27 (hours st) (minutes st)); [lia|lia|done].
Qed.

Lemma scan_overrun_iff_all_bits_witness :
  main_pass (updateSeq (State 31 63 0 [] 0 0 [] [] 0)) = None.
Proof.
  apply (proj1 (scan_overrun_iff_all_bits (State 31 63 0 [] 0 0 [] [] 0)
    ltac:(simpl; lia) ltac:(simpl; lia) ltac:(simpl; lia))).
  reflexivity.
Defined.

(** ** Is the display up to date? *)

(** X7: over a tick from a valid time the array on display follows the
    time, except at the turn of the hour: a tick inside a minute keeps the
    display as fresh or stale as it was, the tick that completes a minute
    other than the 59th leaves it fresh, and the tick at xx:59:59 leaves the
    array of xx:60 on display, which is not the array of the new time. *)
Theorem display_over_tick (st : state) :
  timeValid st →
  (seconds st ≠ 59 → (displayFresh (ISR_TIMER1_OVF st) ↔ displayFresh st)) ∧
  (seconds st = 59 → minutes st ≠ 59 → displayFresh (ISR_TIMER1_OVF st)) ∧
  (seconds st = 59 → minutes st = 59 → ¬ displayFresh (ISR_TIMER1_OVF st)).
Proof.
  intros [[Hh Hm] Hs]. split; [|split].
  - intros Hne. rewrite tick_quiet by lia. done.
  - intros E N59.
    destruct (tick_rollover st E (conj Hh Hm)) as (_ & Hm' & Hh' & _ & Hseq).
    unfold displayFresh. rewrite Hseq, Hm', Hh'.
    destruct (Z.eqb_spec (minutes st) 59) as [?|_]; [done|].
    by rewrite Z.mod_small by lia.
  - intros E E59.
    destruct (tick_rollover st E (conj Hh Hm)) as (_ & Hm' & Hh' & _ & Hseq).
    unfold displayFresh. rewrite Hseq, Hm', Hh', E59.
    change ((59 + 1) mod 60) with 0. change (59 + 1) with 60. simpl.
    intros Heq. apply (f_equal decodeSeq) in Heq.
    pose proof (Z.mod_pos_bound (hours st + 1) 24).
    rewrite !packTime_sum in Heq by lia.
    rewrite !decode_encode in Heq by lia. lia.
Qed.

Lemma display_over_tick_witness :
  timeValid (State 3 59 59 (encode 251) 0 0 [] [] 0) ∧
  ¬ displayFresh (ISR_TIMER1_OVF (State 3 59 59 (encode 251) 0 0 [] [] 0)).
Proof.
  assert (timeValid (State 3 59 59 (encode 251) 0 0 [] [] 0)) as Hv
    by (unfold timeValid, hmValid; simpl; lia).
  split; [exact Hv|].
  exact (proj2 (proj2 (display_over_tick _ Hv)) eq_refl eq_refl).
Defined.

(** ** More on the pin-change interrupt *)

Lemma press_after_fire (b : button) (st : state) :
  let st' := set_bouncer 0 (button_action b st) in
  pressHours st' = st' ∧ pressMinutes st' = st' ∧ pressWake st' = st'.
Proof. apply press_ignored. destruct b; simpl; lia. Qed.

(** What one run of the routine amounts to at or above the threshold. *)
Lemma pcint_serves (pina pinb : Z) (st : state) :
  10 ≤ bouncer st →
  ISR_PCINT pina pinb st
  = match firstLow pina pinb with
    | Some b => set_bouncer 0 (button_action b st)
    | None => st
    end.
Proof.
  intros Hb. destruct (press_fires st Hb) as (Fh & Fm & Fw).
  destruct (press_after_fire HoursButton st) as (_ & Hhm & Hhw).
  destruct (press_after_fire MinutesButton st) as (_ & _ & Hmw).
  cbv zeta in *. unfold ISR_PCINT, firstLow.
  destruct (pinLow pina PINA0), (pinLow pinb PINB6), (pinLow pinb PINB3);
    cbv zeta; rewrite ?Fh, ?Hhm, ?Hhw, ?Fm, ?Hmw, ?Fw; done.
Qed.

Lemma action_served (b : button) (st : state) :
  served b st (set_bouncer 0 (button_action b st)).
Proof.
  destruct st as [h m s seq bo sl pa el sc].
  destruct b; unfold served, displayFresh, wrap_u8; simpl; repeat split.
Qed.

(** C7 (as stated, refuted): with the hours pin and the wake pin both low
    and the counter at 10, the wake edge arrives with the counter at the
    threshold and yet its action does not run: the hours block comes first
    and clears the counter, and the sleep timer keeps its value. *)
Lemma wake_edge_not_served :
  let st := State 3 16 0 (encode 208) 10 30 [1] [(3, 16)] 0 in
  buttonLow WakeButton 0 64 = true ∧ 10 ≤ bouncer st ∧
  ¬ served WakeButton st (ISR_PCINT 0 64 st) ∧
  sleep (ISR_PCINT 0 64 st) = 30 ∧ hours (ISR_PCINT 0 64 st) = 4.
Proof.
  split; [done|]. split; [simpl; lia|]. split; [|done].
  intros (_ & _ & _ & _ & _ & _ & Hsl & _). vm_compute in Hsl. congruence.
Qed.

(** C7 (amended): on a run of the pin-change routine with the counter at 10
    or more, the action of the first button read low, in the order hours,
    minutes, wake, is executed exactly once (hours or minutes up by one and
    one run of the encoder on the new time, or the sleep timer cleared) and
    the counter is cleared; nothing else changes, so a button that is low
    behind it is not served, and the same pin change repeated at once does
    nothing.  With no button low, or with the counter below 10, the routine
    leaves the whole state as it is. *)
Theorem debounce_serves_first_low (pina pinb : Z) (st : state) :
  (10 ≤ bouncer st →
     match firstLow pina pinb with
     | Some b =>
         served b st (ISR_PCINT pina pinb st) ∧
         ISR_PCINT pina pinb (ISR_PCINT pina pinb st) = ISR_PCINT pina pinb st
     | None => ISR_PCINT pina pinb st = st
     end) ∧
  (bouncer st < 10 → ISR_PCINT pina pinb st = st).
Proof.
  split; [|by apply pcint_ignored].
  intros Hb. rewrite (pcint_serves pina pinb st Hb).
  destruct (firstLow pina pinb) as [b|]; [|done]. split.
  - apply action_served.
  - apply pcint_ignored. destruct b; simpl; lia.
Qed.

Lemma debounce_serves_first_low_witness :
  10 ≤ bouncer (State 3 16 0 (encode 208) 10 30 [1] [(3, 16)] 0) ∧
  served HoursButton (State 3 16 0 (encode 208) 10 30 [1] [(3, 16)] 0)
         (ISR_PCINT 0 64 (State 3 16 0 (encode 208) 10 30 [1] [(3, 16)] 0)) ∧
  ISR_PCINT 0 64 (State 3 16 0 (encode 208) 9 30 [1] [(3, 16)] 0)
  = State 3 16 0 (encode 208) 9 30 [1] [(3, 16)] 0.
Proof.
  assert (10 ≤ bouncer (State 3 16 0 (encode 208) 10 30 [1] [(3, 16)] 0)) as Hb
    by (simpl; lia).
  split; [exact Hb|]. split.
  - exact (proj1 (proj1 (debounce_serves_first_low 0 64
      (State 3 16 0 (encode 208) 10 30 [1] [(3, 16)] 0)) Hb)).
  - exact (proj2 (debounce_serves_first_low 0 64
      (State 3 16 0 (encode 208) 9 30 [1] [(3, 16)] 0)) ltac:(simpl; lia)).
Defined.

(** X8: one run of the pin-change routine performs at most one action, that
    of the first button read low in the order hours, minutes, wake, and
    only with the counter at 10 or more; the later blocks find the counter
    cleared. *)
Theorem pcint_first_low_wins (pina pinb : Z) (st : state) :
  ISR_PCINT pina pinb st
  = match firstLow pina pinb with
    | Some b => if 10 <=? bouncer st then set_bouncer 0 (button_action b st) else st
    | None => st
    end.
Proof.
  destruct (Z.leb_spec 10 (bouncer st)) as [Hb|Hb].
  - destruct (press_fires st Hb) as (Fh & Fm & Fw).
    destruct (press_after_fire HoursButton st) as (_ & Hhm & Hhw).
    destruct (press_after_fire MinutesButton st) as (_ & _ & Hmw).
    cbv zeta in *. unfold ISR_PCINT, firstLow.
    destruct (pinLow pina PINA0), (pinLow pinb PINB6), (pinLow pinb PINB3);
      cbv zeta; rewrite ?Fh, ?Hhm, ?Hhw, ?Fm, ?Hmw, ?Fw; done.
  - rewrite pcint_ignored by done. by destruct (firstLow pina pinb).
Qed.

Lemma press_frame (st : state) :
  (seconds (pressHours st) = seconds st ∧ PORTA (pressHours st) = PORTA st ∧
   sleepCalls (pressHours st) = sleepCalls st) ∧
  (seconds (pressMinutes st) = seconds st ∧ PORTA (pressMinutes st) = PORTA st ∧
   sleepCalls (pressMinutes st) = sleepCalls st) ∧
  (seconds (pressWake st) = seconds st ∧ PORTA (pressWake st) = PORTA st ∧
   sleepCalls (pressWake st) = sleepCalls st).
Proof.
  unfold pressHours, pressMinutes, pressWake. by destruct (10 <=? bouncer st).
Qed.

Lemma pcint_frame (pina pinb : Z) (st : state) :
  seconds (ISR_PCINT pina pinb st) = seconds st ∧
  PORTA (ISR_PCINT pina pinb st) = PORTA st ∧
  sleepCalls (ISR_PCINT pina pinb st) = sleepCalls st.
Proof.
  unfold ISR_PCINT. cbv zeta.
  set (st1 := if pinLow pina PINA0 then pressHours st else st).
  set (st2 := if pinLow pinb PINB6 then pressMinutes st1 else st1).
  assert (seconds st1 = seconds st ∧ PORTA st1 = PORTA st ∧
          sleepCalls st1 = sleepCalls st) as (H1s & H1p & H1c).
  { subst st1. destruct (pinLow pina PINA0); [|done].
    destruct (press_frame st) as (H & _). exact H. }
  assert (seconds st2 = seconds st1 ∧ PORTA st2 = PORTA st1 ∧
          sleepCalls st2 = sleepCalls st1) as (H2s & H2p & H2c).
  { subst st2. destruct (pinLow pinb PINB6); [|done].
    destruct (press_frame st1) as (_ & H & _). exact H. }
  destruct (pinLow pinb PINB3).
  - destruct (press_frame st2) as (_ & _ & (-> & -> & ->)).
    by rewrite H2s, H2p, H2c, H1s, H1p, H1c.
  - by rewrite H2s, H2p, H2c, H1s, H1p, H1c.
Qed.

Lemma tick_frame (st : state) :
  bouncer (ISR_TIMER1_OVF st) = bouncer st ∧
  PORTA (ISR_TIMER1_OVF st) = PORTA st ∧
  sleepCalls (ISR_TIMER1_OVF st) = sleepCalls st.
Proof.
  unfold ISR_TIMER1_OVF. simpl.
  destruct (timeSetter_counters (set_seconds (wrap_u8 (seconds st + 1)) st))
    as (_ & -> & -> & ->). done.
Qed.

Lemma main_pass_frame (st st' : state) :
  main_pass st = Some st' →
  hours st' = hours st ∧ minutes st' = minutes st ∧ seconds st' = seconds st ∧
  sleep st' = sleep st.
Proof.
  unfold main_pass, multiplex. destruct (25 <=? sleep st).
  - by intros [= <-].
  - simpl. destruct (muxScan _ _ _) as [[i port]|]; [|done]. by intros [= <-].
Qed.

(** X9: what the three routines leave alone.  The pin-change interrupt
    never changes the seconds and never writes the port; the timer
    interrupt never changes the debounce counter and never writes the port;
    a pass of the main loop never changes the time, the array on display,
    the encoder's history or the sleep timer.  Only the main loop enters
    [sleep_mode]. *)
Theorem routines_leave_alone :
  (∀ pina pinb st,
     seconds (ISR_PCINT pina pinb st) = seconds st ∧
     PORTA (ISR_PCINT pina pinb st) = PORTA st ∧
     sleepCalls (ISR_PCINT pina pinb st) = sleepCalls st) ∧
  (∀ st,
     bouncer (ISR_TIMER1_OVF st) = bouncer st ∧
     PORTA (ISR_TIMER1_OVF st) = PORTA st ∧
     sleepCalls (ISR_TIMER1_OVF st) = sleepCalls st) ∧
  (∀ st st', main_pass st = Some st' →
     (hours st', minutes st', seconds st') = (hours st, minutes st, seconds st) ∧
     ledSeq st' = ledSeq st ∧ encLog st' = encLog st ∧ sleep st' = sleep st).
Proof.
  split; [|split].
  - intros. apply pcint_frame.
  - intros. apply tick_frame.
  - intros st st' Hpass.
    destruct (main_pass_frame st st' Hpass) as (-> & -> & -> & ->).
    destruct (main_pass_display st st' Hpass) as (-> & ->). done.
Qed.

Lemma routines_leave_alone_witness :
  seconds <$> main_pass (setup power_on) = Some 0.
Proof.
  destruct (main_pass (setup power_on)) as [st'|] eqn:Hpass; [|discriminate].
  destruct (proj2 (proj2 routines_leave_alone) _ _ Hpass) as (Heq & _).
  simpl. f_equal. exact (f_equal snd Heq).
Defined.

(** ** Passes of the main loop *)

Lemma run_app (es1 es2 : list event) : ∀ st,
  run (es1 ++ es2) st = run es1 st ≫= run es2.
Proof.
  induction es1 as [|e es1 IH]; intros st; simpl; [done|].
  destruct (step e st); [apply IH|done].
Qed.

Lemma shown_0 (pats : list Z) (st : state) : shown 0 pats st = st.
Proof.
  destruct st. unfold shown. simpl. by rewrite Z.add_0_r, app_nil_r.
Qed.

(** One pass of the display branch over an array that holds [pats] and
    then a zero. *)
Lemma main_pass_shows (st : state) (pats rest : list Z) :
  sleep st < 25 → ledSeq st = pats ++ 0 :: rest → Forall (λ x, x ≠ 0) pats →
  0 ≤ bouncer st < 32767 →
  main_pass st = Some (shown 1 pats st).
Proof.
  destruct st as [h m s seq b sl pa el sc]. simpl. intros Hsl -> Hnz Hb.
  unfold main_pass, multiplex, shown. simpl.
  destruct (Z.leb_spec 25 sl) as [?|_]; [lia|].
  rewrite muxScan_stops by done.
  rewrite wrap_int_small by lia. by rewrite app_nil_r.
Qed.

Lemma run_passes (n : nat) : ∀ (st : state) (pats rest : list Z),
  sleep st < 25 → ledSeq st = pats ++ 0 :: rest → Forall (λ x, x ≠ 0) pats →
  0 ≤ bouncer st → bouncer st + Z.of_nat n < 32768 →
  run (replicate n MainPass) st = Some (shown n pats st).
Proof.
  induction n as [|n IH]; intros st pats rest Hsl Hseq Hnz Hb0 Hb.
  - simpl. by rewrite shown_0.
  - cbn [replicate run step].
    rewrite (main_pass_shows st pats rest) by (done || lia).
    rewrite (IH (shown 1 pats st) pats rest) by (done || (simpl; lia)).
    destruct st as [h m s seq b sl pa el sc]. unfold shown. simpl.
    f_equal. f_equal; [lia|]. by rewrite app_nil_r, app_assoc.
Qed.

(** X10: while awake, [n] passes of the main loop over an array that holds
    the patterns [pats] and then a zero write exactly [pats], in order, [n]
    times to the port, count the debounce counter up by [n], and change
    nothing else. *)
Theorem passes_show_patterns (n : nat) (st : state) (pats rest : list Z) :
  sleep st < 25 → ledSeq st = pats ++ 0 :: rest → Forall (λ x, x ≠ 0) pats →
  0 ≤ bouncer st → bouncer st + Z.of_nat n < 32768 →
  run (replicate n MainPass) st = Some (shown n pats st).
Proof. apply run_passes. Qed.

Lemma passes_show_patterns_witness :
  PORTA <$> run (replicate 2 MainPass) (setup power_on)
  = Some [1; 9; 33; 95; 9; 33; 95].
Proof.
  rewrite (passes_show_patterns 2 (setup power_on) [9; 33; 95] (replicate 7 0));
    [reflexivity|simpl; lia|reflexivity|repeat constructor; lia|simpl; lia|simpl; lia].
Defined.

(** X11: the debounce window.  After the counter was cleared, a pin change
    showing one button low that comes after [k] passes of the display
    branch, [k] below 32768 so that the [int] counter has not overflowed,
    is ignored when [k < 10] and performs the button's action when
    [k >= 10]. *)
Theorem debounce_window (k : nat) (b : button) (pina pinb : Z)
    (st : state) (pats rest : list Z) :
  sleep st < 25 → ledSeq st = pats ++ 0 :: rest → Forall (λ x, x ≠ 0) pats →
  bouncer st = 0 → Z.of_nat k < 32768 → onlyLow b pina pinb →
  run (replicate k MainPass ++ [PinChange pina pinb]) st
  = Some (if 10 <=? Z.of_nat k
          then set_bouncer 0 (button_action b (shown k pats st))
          else shown k pats st).
Proof.
  intros Hsl Hseq Hnz Hb Hk Hlow. rewrite run_app.
  rewrite (run_passes k st pats rest) by (done || lia).
  cbn [mbind option_bind run step]. f_equal.
  assert (bouncer (shown k pats st) = Z.of_nat k) as Hbk by (simpl; lia).
  destruct (Z.leb_spec 10 (Z.of_nat k)).
  - apply pcint_fires; [done|lia].
  - apply pcint_ignored. lia.
Qed.

Lemma debounce_window_witness :
  (hours <$> run (replicate 9 MainPass ++ [PinChange 0 72]) (ISR_PCINT 1 0 (setup power_on))
   = Some 3) ∧
  (hours <$> run (replicate 10 MainPass ++ [PinChange 0 72]) (ISR_PCINT 1 0 (setup power_on))
   = Some 4).
Proof.
  assert (onlyLow HoursButton 0 72) as Hlow by (by repeat split).
  split.
  - rewrite (debounce_window 9 HoursButton 0 72 _ [9; 33; 95] (replicate 7 0));
      [reflexivity|simpl; lia|reflexivity|repeat constructor; lia
      |reflexivity|lia|exact Hlow].
  - rewrite (debounce_window 10 HoursButton 0 72 _ [9; 33; 95] (replicate 7 0));
      [reflexivity|simpl; lia|reflexivity|repeat constructor; lia
      |reflexivity|lia|exact Hlow].
Defined.

(** ** Asleep *)

(** X12: asleep, the hours and minutes buttons still work but do not wake
    the display: the pass that goes to sleep arms the counter, so a pin
    change showing the hours or the minutes button low adjusts the time and
    rebuilds the array, the sleep timer keeps its value, and the next pass
    writes the idle value 1 and goes to sleep again. *)
Theorem adjust_while_asleep (b : button) (pina pinb : Z) (st : state) :
  25 ≤ sleep st → b ≠ WakeButton → onlyLow b pina pinb →
  ∃ st1, main_pass st = Some st1 ∧
    let st2 := ISR_PCINT pina pinb st1 in
    st2 = set_bouncer 0 (button_action b st1) ∧
    sleep st2 = sleep st ∧
    run [MainPass] st2 = Some (sleep_mode (write_PORTA 1 (set_bouncer 10 st2))).
Proof.
  intros Hsl Hb Hlow. eexists. split.
  { unfold main_pass. destruct (Z.leb_spec 25 (sleep st)) as [_|?]; [|lia].
    reflexivity. }
  set (st1 := sleep_mode (write_PORTA 1 (set_bouncer 10 st))).
  cbv zeta. rewrite (pcint_fires b pina pinb st1 Hlow) by (simpl; lia).
  split; [done|].
  assert (sleep (set_bouncer 0 (button_action b st1)) = sleep st) as Hsame
    by (by destruct b).
  split; [done|].
  cbn [run step]. unfold main_pass. rewrite Hsame.
  destruct (Z.leb_spec 25 (sleep st)) as [_|?]; [|lia]. done.
Qed.

Lemma adjust_while_asleep_witness :
  25 ≤ sleep (State 3 16 25 (encode 208) 0 25 [1] [(3, 16)] 0) ∧
  ∃ st1, main_pass (State 3 16 25 (encode 208) 0 25 [1] [(3, 16)] 0) = Some st1 ∧
         sleep (ISR_PCINT 0 72 st1) = 25.
Proof.
  assert (25 ≤ sleep (State 3 16 25 (encode 208) 0 25 [1] [(3, 16)] 0)) as H25
    by (simpl; lia).
  split; [exact H25|].
  destruct (adjust_while_asleep HoursButton 0 72 _ H25
              ltac:(discriminate) ltac:(by repeat split))
    as (st1 & Hpass & _ & Hsl & _).
  exists st1. split; [exact Hpass|exact Hsl].
Defined.

(** ** What every run from power-on keeps *)

Lemma encode_cells (w : Z) :
  0 ≤ w → Forall (λ x, x = 0 ∨ Z.odd x = true) (encode w).
Proof.
  intros Hw. rewrite encode_picked by done. apply Forall_app. split.
  - assert (Forall (λ p, Z.odd (ledPins p) = true) ledPairs) as Htbl
      by (unfold ledPairs; by repeat constructor).
    unfold picked. apply Forall_fmap, Forall_forall. intros p Hp.
    apply list_elem_of_filter in Hp as [_ Hp].
    rewrite Forall_forall in Htbl. right. by apply Htbl.
  - apply Forall_replicate. by left.
Qed.

Lemma length_encode (w : Z) : 0 ≤ w → length (encode w) = 11%nat.
Proof.
  intros Hw. rewrite encode_picked by done. rewrite length_app, length_replicate.
  pose proof (length_picked w ledPairs) as Hlen.
  change (length ledPairs) with 11%nat in Hlen. lia.
Qed.

(** The display scan writes only nonzero cells of the array. *)
Lemma muxScan_writes (P : Z → Prop) (rest : list Z) : ∀ i port j port',
  muxScan rest i port = Some (j, port') →
  Forall (λ x, x = 0 ∨ P x) rest → Forall P port → Forall P port'.
Proof.
  induction rest as [|x rest IH]; intros i port j port' Hscan Hrest Hport;
    simpl in Hscan; [done|].
  inversion_clear Hrest as [|? ? Hx Hrest'].
  destruct (Z.eqb_spec x 0) as [->|Hne].
  - by injection Hscan as _ <-.
  - apply (IH _ _ _ _ Hscan Hrest'). apply Forall_app. split; [done|].
    constructor; [|done]. by destruct Hx.
Qed.

Lemma tick_ranges (st : state) :
  0 ≤ seconds st ≤ 59 → 0 ≤ hours st < 256 → 0 ≤ minutes st < 256 →
  0 ≤ seconds (ISR_TIMER1_OVF st) ≤ 59 ∧
  0 ≤ hours (ISR_TIMER1_OVF st) < 256 ∧
  0 ≤ minutes (ISR_TIMER1_OVF st) < 256.
Proof.
  destruct st as [h m s seq b sl pa el sc]. simpl. intros Hs Hh Hm.
  unfold ISR_TIMER1_OVF, timeSetter. simpl.
  rewrite (wrap_u8_small (s + 1)) by lia.
  pose proof (Z.mod_pos_bound (m + 1) 256).
  pose proof (Z.mod_pos_bound (h + 1) 256).
  destruct (Z.eqb_spec (s + 1) 60); simpl.
  - destruct (Z.eqb_spec (wrap_u8 (m + 1)) 60); simpl;
      [destruct (24 <=? wrap_u8 (h + 1))|destruct (24 <=? h)];
      simpl; unfold wrap_u8 in *; lia.
  - destruct (Z.eqb_spec m 60); simpl;
      [destruct (24 <=? wrap_u8 (h + 1))|destruct (24 <=? h)];
      simpl; unfold wrap_u8 in *; lia.
Qed.

Lemma press_ranges (st : state) :
  0 ≤ hours st < 256 → 0 ≤ minutes st < 256 →
  (0 ≤ hours (pressHours st) < 256 ∧ 0 ≤ minutes (pressHours st) < 256) ∧
  (0 ≤ hours (pressMinutes st) < 256 ∧ 0 ≤ minutes (pressMinutes st) < 256) ∧
  (0 ≤ hours (pressWake st) < 256 ∧ 0 ≤ minutes (pressWake st) < 256).
Proof.
  intros Hh Hm. unfold pressHours, pressMinutes, pressWake.
  pose proof (Z.mod_pos_bound (hours st + 1) 256).
  pose proof (Z.mod_pos_bound (minutes st + 1) 256).
  destruct (10 <=? bouncer st); simpl; unfold wrap_u8; lia.
Qed.

Lemma pcint_ranges (pina pinb : Z) (st : state) :
  0 ≤ hours st < 256 → 0 ≤ minutes st < 256 →
  0 ≤ hours (ISR_PCINT pina pinb st) < 256 ∧
  0 ≤ minutes (ISR_PCINT pina pinb st) < 256.
Proof.
  intros Hh Hm. unfold ISR_PCINT. cbv zeta.
  set (st1 := if pinLow pina PINA0 then pressHours st else st).
  set (st2 := if pinLow pinb PINB6 then pressMinutes st1 else st1).
  assert (0 ≤ hours st1 < 256 ∧ 0 ≤ minutes st1 < 256) as [Hh1 Hm1].
  { subst st1. destruct (pinLow pina PINA0); [|done].
    by destruct (press_ranges st Hh Hm) as (H & _). }
  assert (0 ≤ hours st2 < 256 ∧ 0 ≤ minutes st2 < 256) as [Hh2 Hm2].
  { subst st2. destruct (pinLow pinb PINB6); [|done].
    by destruct (press_ranges st1 Hh1 Hm1) as (_ & H & _). }
  destruct (pinLow pinb PINB3); [|done].
  by destruct (press_ranges st2 Hh2 Hm2) as (_ & _ & H).
Qed.

Lemma step_display (e : event) (st st' : state) :
  0 ≤ seconds st ≤ 59 → step e st = Some st' →
  (∃ h m, last (encLog st) = Some (h, m) ∧ ledSeq st = encode (packTime h m)) →
  ∃ h m, last (encLog st') = Some (h, m) ∧ ledSeq st' = encode (packTime h m).
Proof.
  intros Hs Hstep Hold.
  assert ((∃ hm, encLog st' = encLog st ++ [hm] ∧
                 ledSeq st' = encode (packTime hm.1 hm.2)) ∨
          (encLog st' = encLog st ∧ ledSeq st' = ledSeq st)) as [Hnew|[Hl Hq]].
  { destruct e as [|pina pinb|]; simpl in Hstep.
    - injection Hstep as <-. destruct (tick_display st Hs) as [Hdue Hnot].
      destruct (Z.eq_dec (seconds st) 59) as [E|E].
      + left. destruct (Hdue E) as [Hl Hq]. eexists. split; [exact Hl|exact Hq].
      + right. by apply Hnot.
    - injection Hstep as <-. destruct (pcint_display pina pinb st) as [Hdue Hnot].
      destruct (decide (rebuildDue (PinChange pina pinb) st)) as [D|D].
      + left. by apply Hdue.
      + right. by apply Hnot.
    - right. by apply main_pass_display. }
  - destruct Hnew as ([h m] & Hl & Hq). exists h, m.
    rewrite Hl, last_snoc. done.
  - rewrite Hl, Hq. done.
Qed.

Lemma step_runInv (e : event) (st st' : state) :
  runInv st → step e st = Some st' → runInv st'.
Proof.
  intros (Hs & Hh & Hm & Hlen & Hdisp & Hport) Hstep.
  pose proof (step_display e st st' Hs Hstep Hdisp) as (h' & m' & Hlast & Hseq).
  assert (length (ledSeq st') = 11%nat) as Hlen'.
  { rewrite Hseq. apply length_encode. apply packTime_nonneg. }
  assert ((0 ≤ seconds st' ≤ 59 ∧ 0 ≤ hours st' < 256 ∧ 0 ≤ minutes st' < 256) ∧
          Forall (λ v, Z.odd v = true) (PORTA st')) as [(Hs' & Hh' & Hm') Hport'].
  { destruct e as [|pina pinb|]; simpl in Hstep.
    - injection Hstep as <-. split; [by apply tick_ranges|].
      by rewrite (proj1 (proj2 (tick_frame st))).
    - injection Hstep as <-.
      destruct (pcint_frame pina pinb st) as (-> & -> & _).
      split; [|done]. split; [done|]. by apply pcint_ranges.
    - destruct (main_pass_frame st st' Hstep) as (-> & -> & -> & _).
      split; [done|].
      unfold main_pass, multiplex in Hstep. destruct (25 <=? sleep st).
      + injection Hstep as <-. simpl. apply Forall_app. split; [done|].
        by repeat constructor.
      + simpl in Hstep.
        destruct (muxScan (ledSeq st) 0 (PORTA st)) as [[i port]|] eqn:Hscan;
          [|done].
        injection Hstep as <-. simpl.
        apply (muxScan_writes _ _ _ _ _ _ Hscan); [|done].
        destruct Hdisp as (h & m & _ & ->).
        apply encode_cells, packTime_nonneg. }
  unfold runInv. split; [done|]. split; [done|]. split; [done|].
  split; [done|]. split; [by exists h', m'|done].
Qed.

Lemma run_runInv (es : list event) : ∀ st st',
  runInv st → run es st = Some st' → runInv st'.
Proof.
  induction es as [|e es IH]; intros st st' Hinv Hrun; simpl in Hrun.
  - by injection Hrun as <-.
  - destruct (step e st) as [st1|] eqn:Hstep; [|done].
    apply (IH st1 st'); [|done]. by apply (step_runInv e st).
Qed.

Lemma setup_runInv : runInv (setup power_on).
Proof.
  unfold runInv. split; [simpl; lia|]. split; [simpl; lia|].
  split; [simpl; lia|]. split; [done|].
  split; [by exists 3, 16|by repeat constructor].
Qed.

(** X13: in every state a run of interrupts and main-loop passes reaches
    from power-on, the seconds are in 0..59, [ledSeq] has its eleven cells,
    and it is the array of the time the encoder read last. *)
Theorem run_keeps_display (es : list event) (st : state) :
  run es (setup power_on) = Some st →
  0 ≤ seconds st ≤ 59 ∧
  length (ledSeq st) = 11%nat ∧
  ∃ h m, last (encLog st) = Some (h, m) ∧ ledSeq st = encode (packTime h m).
Proof.
  intros Hrun.
  destruct (run_runInv es _ _ setup_runInv Hrun) as (Hs & _ & _ & Hlen & Hdisp & _).
  done.
Qed.

Lemma run_keeps_display_witness :
  run [MainPass; Tick] (setup power_on)
  = Some (State 3 16 1 (encode 208) 1 1 [1; 9; 33; 95] [(3, 16)] 0) ∧
  0 ≤ 1 ≤ 59.
Proof.
  assert (run [MainPass; Tick] (setup power_on)
          = Some (State 3 16 1 (encode 208) 1 1 [1; 9; 33; 95] [(3, 16)] 0)) as Hrun
    by reflexivity.
  split; [exact Hrun|].
  exact (proj1 (run_keeps_display _ _ Hrun)).
Defined.

Lemma run_port_odd (es : list event) (st : state) :
  run es (setup power_on) = Some st →
  Forall (λ v, Z.testbit v PINA0 = true) (PORTA st).
Proof.
  intros Hrun.
  destruct (run_runInv es _ _ setup_runInv Hrun) as (_ & _ & _ & _ & _ & Hport).
  eapply Forall_impl; [exact Hport|]. intros v Hv. simpl in Hv.
  unfold PINA0. by rewrite Z.bit0_odd.
Qed.

(** Without an interrupt between the two loads the interrupted scan is the
    undisturbed one. *)
Lemma muxScanIrq_quiet (n : nat) : ∀ (i : nat) (st : state),
  muxScanIrq (replicate n []) i st = muxScanIrq [] i st.
Proof.
  induction n as [|n IH]; intros i st; [done|].
  cbn [replicate muxScanIrq interrupts foldl].
  destruct (ledSeq st !! i) as [x|] eqn:Hx.
  - rewrite (drop_S _ _ _ Hx). cbn [muxScan].
    destruct (Z.eqb_spec x 0) as [->|Hne].
    + by destruct st.
    + rewrite IH. cbn [muxScanIrq]. by destruct st.
  - apply lookup_ge_None in Hx. by rewrite drop_ge.
Qed.

(** X14: as long as interrupts are taken between passes of the main loop,
    every value written to PORTA in a run from power-on has bit 0 set (the
    pull-up of the wake pin PA0 stays on), and a pass over the two-load scan
    with no interrupt between the loads is such a pass.  But the two loads
    of [ledSeq[i]] can be parted: ten passes after power-on, a press of the
    hours button taken between the test of [ledSeq[2]] and the store
    [PORTA = ledSeq[2]] rebuilds the array for 4:16, whose cell 2 is 0, and
    the pass writes 0 to PORTA. *)
Theorem port_bit0_unless_raced :
  (∀ es st, run es (setup power_on) = Some st →
     Forall (λ v, Z.testbit v PINA0 = true) (PORTA st)) ∧
  (∀ n st, multiplexIrq (replicate n []) st = multiplex st) ∧
  (∃ st, run (replicate 10 MainPass) (setup power_on) = Some st ∧
     PORTA <$> multiplexIrq [[]; []; [IrqPin 0 72]] st
     = Some (PORTA st ++ [9; 33; 0])).
Proof.
  split; [exact run_port_odd|]. split.
  - intros n st. unfold multiplexIrq, multiplex.
    rewrite muxScanIrq_quiet. done.
  - eexists. split; [by vm_compute|]. by vm_compute.
Qed.

Lemma port_bit0_unless_raced_witness :
  run [MainPass; Tick] (setup power_on)
  = Some (State 3 16 1 (encode 208) 1 1 [1; 9; 33; 95] [(3, 16)] 0) ∧
  Forall (λ v, Z.testbit v PINA0 = true) [1; 9; 33; 95].
Proof.
  assert (run [MainPass; Tick] (setup power_on)
          = Some (State 3 16 1 (encode 208) 1 1 [1; 9; 33; 95] [(3, 16)] 0)) as Hrun
    by reflexivity.
  split; [exact Hrun|].
  exact (proj1 port_bit0_unless_raced _ _ Hrun).
Defined.

(** ** More on ticks *)

(** X15: a tick repairs the hours but repairs the minutes only at exactly
    60.  After any tick the hours are in 0..23, whatever they were; minutes
    found at 60 inside a minute (left there by a press at xx:59) become 0
    and are carried into the hours. *)
Theorem tick_repairs_hours (st : state) :
  0 ≤ hours st < 256 → 0 ≤ minutes st < 256 → 0 ≤ seconds st ≤ 59 →
  0 ≤ hours (ISR_TIMER1_OVF st) ≤ 23 ∧
  (minutes st = 60 → seconds st < 59 → hours st ≤ 23 →
     minutes (ISR_TIMER1_OVF st) = 0 ∧
     hours (ISR_TIMER1_OVF st) = (hours st + 1) mod 24).
Proof.
  destruct st as [h m s seq b sl pa el sc]. simpl. intros Hh Hm Hs.
  unfold ISR_TIMER1_OVF, timeSetter. simpl.
  rewrite (wrap_u8_small (s + 1)) by lia.
  pose proof (Z.mod_pos_bound (h + 1) 256).
  destruct (Z.eqb_spec (s + 1) 60); simpl.
  - split; [|intros; lia].
    destruct (wrap_u8 (m + 1) =? 60); simpl;
      [destruct (Z.leb_spec 24 (wrap_u8 (h + 1)))|destruct (Z.leb_spec 24 h)];
      simpl; unfold wrap_u8 in *; lia.
  - destruct (Z.eqb_spec m 60) as [->|Hm60]; simpl.
    + unfold wrap_u8. destruct (Z.leb_spec 24 ((h + 1) mod 256)); simpl.
      * split; [lia|]. intros _ _ H23. rewrite Z.mod_small in * by lia.
        assert (h = 23) as -> by lia. done.
      * split; [lia|]. intros _ _ H23. rewrite Z.mod_small in * by lia.
        by rewrite Z.mod_small by lia.
    + destruct (Z.leb_spec 24 h); simpl; (split; [lia|]); intros; lia.
Qed.

Lemma tick_repairs_hours_witness :
  0 ≤ 3 < 256 ∧
  (minutes (ISR_TIMER1_OVF (State 3 60 20 [] 0 0 [] [] 0)) = 0 ∧
   hours (ISR_TIMER1_OVF (State 3 60 20 [] 0 0 [] [] 0)) = (3 + 1) mod 24).
Proof.
  split; [lia|].
  exact (proj2 (tick_repairs_hours (State 3 60 20 [] 0 0 [] [] 0)
    ltac:(simpl; lia) ltac:(simpl; lia) ltac:(simpl; lia))
    eq_refl ltac:(simpl; lia) ltac:(simpl; lia)).
Defined.

Lemma tick_seconds (st : state) :
  0 ≤ seconds st ≤ 59 →
  seconds (ISR_TIMER1_OVF st) = (seconds st + 1) mod 60.
Proof.
  destruct st as [h m s seq b sl pa el sc]. simpl. intros Hs.
  unfold ISR_TIMER1_OVF, timeSetter. simpl.
  rewrite (wrap_u8_small (s + 1)) by lia.
  destruct (Z.eqb_spec (s + 1) 60) as [E|E]; simpl.
  - replace (s + 1) with 60 by lia.
    destruct (wrap_u8 (m + 1) =? 60); simpl;
      [destruct (24 <=? wrap_u8 (h + 1))|destruct (24 <=? h)]; done.
  - rewrite Z.mod_small by lia.
    destruct (m =? 60); simpl;
      [destruct (24 <=? wrap_u8 (h + 1))|destruct (24 <=? h)]; done.
Qed.

Lemma ticks_seconds (n : nat) (st : state) :
  0 ≤ seconds st ≤ 59 →
  seconds (ticks n st) = (seconds st + Z.of_nat n) mod 60.
Proof.
  intros Hs. induction n as [|n IH].
  - change (ticks 0 st) with st. rewrite Z.mod_small; lia.
  - change (ticks (S n) st) with (ISR_TIMER1_OVF (ticks n st)).
    pose proof (Z.mod_pos_bound (seconds st + Z.of_nat n) 60).
    rewrite tick_seconds by (rewrite IH; lia).
    rewrite IH, Z.add_mod_idemp_l by lia. f_equal. lia.
Qed.

(** X16: over [n] ticks the display sequence is rebuilt once for every
    minute that is completed, however the hours and minutes stand: the
    encoder's history grows by [(seconds + n) / 60] entries. *)
Theorem one_rebuild_per_minute (n : nat) (st : state) :
  0 ≤ seconds st ≤ 59 →
  Z.of_nat (length (encLog (ticks n st)))
  = Z.of_nat (length (encLog st)) + (seconds st + Z.of_nat n) / 60.
Proof.
  intros Hs. induction n as [|n IH].
  - change (ticks 0 st) with st. rewrite Z.div_small; lia.
  - change (ticks (S n) st) with (ISR_TIMER1_OVF (ticks n st)).
    pose proof (ticks_seconds n st Hs) as Hsec.
    pose proof (Z.mod_pos_bound (seconds st + Z.of_nat n) 60) as Hb.
    destruct (tick_display (ticks n st)) as [Hdue Hnot]; [lia|].
    destruct (Z.eq_dec (seconds (ticks n st)) 59) as [E|E].
    + destruct (Hdue E) as [-> _]. rewrite length_app. simpl.
      rewrite Nat2Z.inj_add, IH. rewrite Hsec in E.
      Z.div_mod_to_equations. lia.
    + destruct (Hnot E) as [-> _]. rewrite IH. rewrite Hsec in E.
      Z.div_mod_to_equations. lia.
Qed.

Lemma one_rebuild_per_minute_witness :
  0 ≤ seconds (setup power_on) ≤ 59 ∧
  Z.of_nat (length (encLog (ticks 150 (setup power_on)))) = 1 + (0 + 150) / 60.
Proof.
  assert (0 ≤ seconds (setup power_on) ≤ 59) as Hs by (simpl; lia).
  split; [exact Hs|].
  exact (one_rebuild_per_minute 150 (setup power_on) Hs).
Defined.

(** X17: asleep, passes of the main loop never show a pattern: [n] passes
    write the idle value 1 [n] times, enter [sleep_mode] [n] times, leave
    the debounce counter armed at 10, and change nothing else. *)
Theorem passes_while_asleep (n : nat) : ∀ st : state,
  25 ≤ sleep st →
  run (replicate n MainPass) st
  = Some (State (hours st) (minutes st) (seconds st) (ledSeq st)
                (if n is O then bouncer st else 10) (sleep st)
                (PORTA st ++ replicate n 1) (encLog st)
                (n + sleepCalls st)).
Proof.
  induction n as [|n IH]; intros st Hsl.
  - destruct st. simpl. by rewrite app_nil_r.
  - cbn [replicate run step]. unfold main_pass.
    destruct (Z.leb_spec 25 (sleep st)) as [_|?]; [|lia].
    rewrite IH by done. destruct st as [h m s seq b sl pa el sc]. simpl.
    f_equal. f_equal.
    + by destruct n.
    + by rewrite <- app_assoc.
    + lia.
Qed.

Lemma passes_while_asleep_witness :
  25 ≤ sleep (State 3 16 25 (encode 208) 0 25 [1] [(3, 16)] 0) ∧
  run (replicate 3 MainPass) (State 3 16 25 (encode 208) 0 25 [1] [(3, 16)] 0)
  = Some (State 3 16 25 (encode 208) 10 25 [1; 1; 1; 1] [(3, 16)] 3).
Proof.
  assert (25 ≤ sleep (State 3 16 25 (encode 208) 0 25 [1] [(3, 16)] 0)) as H25
    by (simpl; lia).
  split; [exact H25|].
  exact (passes_while_asleep 3 _ H25).
Defined.
